(** * Server-side coordination core of the Socket.io chat application

    A shallow embedding of the event handlers of [server.js] (the five
    registries [users], [rooms], [messages], [typingUsers], [readReceipts]
    and the eleven [socket.on] handlers), followed by the properties of the
    specification that the handlers decide.

    Conventions of the embedding.
    - A handler is a function from the registries to the registries after the
      handler has run, together with the socket.io calls it made, in order.
      Handlers run to completion one at a time, so a run of the server is the
      left-to-right composition of handlers over a list of inputs.
    - [uuidv4()] and [new Date().toISOString()] are read from the
      environment: every input carries the values they return ([Env]).
    - Event payloads are objects whose fields have the types of the wire
      contract; a field with a default in the handler's parameter pattern
      ([room = DEFAULT_ROOM], [avatar = null], [isPrivate = false]) is an
      [option], [None] standing for an absent field.
    - [users] and [rooms] are JavaScript [Map]s whose [values()] are sent to
      clients, so they are kept in insertion order ([JsMap]); a typing set is
      a [Set] sent with [Array.from], kept in insertion order too ([JsSet]).
      [messages], [typingUsers], [readReceipts] and a message's [reactions]
      are only ever looked up by key: they are [gmap]s.
    - [console.log] calls are not modelled. *)

From stdpp Require Import base option list strings pretty gmap fin_maps.

Open Scope string_scope.
Open Scope list_scope.
Open Scope nat_scope.

(** ** JavaScript containers *)

(** [Map] with string keys, in insertion order. [set] on a key already
    present replaces the value where it stands; otherwise it appends. *)
Module JsMap.
Section ops.
Context {V : Type}.

Fixpoint get (k : string) (m : list (string * V)) : option V :=
  match m with
  | [] => None
  | (k', v) :: m' => if decide (k = k') then Some v else get k m'
  end.

Fixpoint set (k : string) (v : V) (m : list (string * V)) : list (string * V) :=
  match m with
  | [] => [(k, v)]
  | (k', v') :: m' =>
      if decide (k = k') then (k, v) :: m' else (k', v') :: set k v m'
  end.

Fixpoint delete (k : string) (m : list (string * V)) : list (string * V) :=
  match m with
  | [] => []
  | (k', v') :: m' =>
      if decide (k = k') then m' else (k', v') :: delete k m'
  end.

Definition values (m : list (string * V)) : list V := m.*2.

Definition has (k : string) (m : list (string * V)) : bool :=
  bool_decide (is_Some (get k m)).
End ops.
End JsMap.

(** [Set] of strings, in insertion order. *)
Module JsSet.
Definition add (x : string) (s : list string) : list string :=
  if decide (x ∈ s) then s else s ++ [x].

Definition delete (x : string) (s : list string) : list string :=
  filter (λ y, y ≠ x) s.
End JsSet.

(** The array operations the handlers use. *)
Module JsArray.
Section ops.
Context {A : Type}.

(** [a.slice(-n)]: the last [n] elements, the whole array when it has
    fewer. *)
Definition slice_last (n : nat) (a : list A) : list A :=
  drop (length a - n) a.

(** [a.shift()]: drops the first element. *)
Definition shift (a : list A) : list A := tail a.

(** [a.push(x)]. *)
Definition push (x : A) (a : list A) : list A := a ++ [x].

(** [a.splice(i, 1)]. *)
Definition splice1 (i : nat) (a : list A) : list A := delete i a.
End ops.

(** [a.indexOf(x)]; [None] stands for [-1]. *)
Definition indexOf (x : string) (a : list string) : option nat :=
  fst <$> list_find (λ y, y = x) a.
End JsArray.

(** ** Data model *)

Record User := mkUser {
  u_id : string;
  username : string;
  avatar : option string;
  joinedAt : string;
  currentRoom : string;
  status : string
}.

(** The default room is created without [createdBy] and [isPrivate]. *)
Record Room := mkRoom {
  r_id : string;
  r_name : string;
  createdBy : option string;
  createdAt : string;
  isPrivate : option bool
}.

(** The descriptor returned by the upload endpoint and sent back by the
    client in [file_uploaded]. *)
Record FileData := mkFileData {
  filename : string;
  originalName : string;
  size : N;
  mimetype : string;
  url : string
}.

Inductive MsgType := text | file.

(** A stored message. Text messages carry [message] and [readBy]; file
    messages carry [fileData] and have no [readBy] field. *)
Record Message := mkMessage {
  m_id : string;
  sender : string;
  senderId : string;
  message : option string;
  m_room : string;
  timestamp : string;
  m_type : MsgType;
  fileData : option FileData;
  reactions : gmap string (list string);
  readBy : option (list string)
}.

(** A private message is sent, never stored; [isSent] is present only in
    the copy echoed to the sender. *)
Record PrivateMessage := mkPrivateMessage {
  pm_id : string;
  pm_sender : string;
  pm_senderId : string;
  pm_message : string;
  pm_timestamp : string;
  pm_isSent : option bool
}.

(** The five registries. *)
Record State := mkState {
  users : list (string * User);
  rooms : list (string * Room);
  messages : gmap string (list Message);
  typingUsers : gmap string (list string);
  readReceipts : gmap string (gset string)
}.

Definition DEFAULT_ROOM : string := "global".

(** The registries when the module has been loaded; [t0] is the time read
    for the default room's [createdAt]. *)
Definition init (t0 : string) : State :=
  {| users := [];
     rooms := JsMap.set DEFAULT_ROOM
                (mkRoom DEFAULT_ROOM "Global Chat" None t0 None) [];
     messages := {[ DEFAULT_ROOM := [] ]};
     typingUsers := {[ DEFAULT_ROOM := [] ]};
     readReceipts := ∅ |}.

(** ** Inputs and outputs *)

Record Env := mkEnv { uuid : string; now : string }.

Inductive Event :=
| user_join (name : string) (av : option string)
| send_message (msg : string) (room : option string)
| typing (isTyping : bool) (room : option string)
| private_message (to : string) (msg : string)
| add_reaction (messageId : string) (reaction : string) (room : option string)
| mark_as_read (messageId : string) (room : option string)
| join_room (roomId : string)
| create_room (name : string) (private : option bool)
| file_uploaded (fd : FileData) (room : option string)
| disconnect
| update_status (st : string).

(** Where an emit goes: [io.emit], [io.to(r).emit],
    [io.to(r).except(s).emit] (also [socket.to(r).emit], which excepts the
    sending socket), and [socket.emit]. *)
Inductive Target :=
| ToAll
| ToRoom (r : string)
| ToRoomExcept (r : string) (s : string)
| ToSender.

Inductive Payload :=
| P_user_list (l : list User)
| P_user_room (u : User) (r : string)
| P_room_list (l : list Room)
| P_room (r : Room)
| P_message_history (r : string) (msgs : list Message)
| P_message (m : Message)
| P_typing_users (us : list string) (r : string)
| P_private (m : PrivateMessage)
| P_read_receipt (messageId userId uname : string)
| P_status (userId uname st : string).

(** One call on the socket.io API. *)
Inductive Action :=
| Emit (tgt : Target) (event : string) (p : Payload)
| SockJoin (r : string)
| SockLeave (r : string).

(** ** Helpers of the server *)

Definition getUserInfo (socketId : string) (s : State) : option User :=
  JsMap.get socketId (users s).

(** A string is falsy exactly when it is empty. *)
Definition truthy (s : string) : bool := negb (bool_decide (s = "")).

Definition broadcastToRoom (roomId event : string) (data : Payload)
    (excludeSocketId : option string) : Action :=
  match excludeSocketId with
  | Some x => if truthy x then Emit (ToRoomExcept roomId x) event data
              else Emit (ToRoom roomId) event data
  | None => Emit (ToRoom roomId) event data
  end.

(** [room = DEFAULT_ROOM] in a parameter pattern. *)
Definition room_or_default (room : option string) : string :=
  default DEFAULT_ROOM room.

(** [(messages.get(r) || []).slice(-50)], the history sent by [user_join]
    and [join_room]. *)
Definition message_history (r : string) (s : State) : list Message :=
  JsArray.slice_last 50 (default [] (messages s !! r)).

(** The names a fresh object literal [{}] inherits from [Object.prototype].
    Reading [reactions[k]] for such a [k] yields the inherited member, which
    is truthy and has no [indexOf]. *)
Definition inherited_key (k : string) : bool :=
  bool_decide (k ∈ ["constructor"; "__defineGetter__"; "__defineSetter__";
                    "hasOwnProperty"; "__lookupGetter__"; "__lookupSetter__";
                    "isPrototypeOf"; "propertyIsEnumerable"; "toString";
                    "valueOf"; "__proto__"; "toLocaleString"]).

(** Record updates. *)
Definition set_users (f : list (string * User) → list (string * User))
    (s : State) : State :=
  mkState (f (users s)) (rooms s) (messages s) (typingUsers s) (readReceipts s).

Definition set_rooms (f : list (string * Room) → list (string * Room))
    (s : State) : State :=
  mkState (users s) (f (rooms s)) (messages s) (typingUsers s) (readReceipts s).

Definition set_messages
    (f : gmap string (list Message) → gmap string (list Message))
    (s : State) : State :=
  mkState (users s) (rooms s) (f (messages s)) (typingUsers s) (readReceipts s).

Definition set_typingUsers
    (f : gmap string (list string) → gmap string (list string))
    (s : State) : State :=
  mkState (users s) (rooms s) (messages s) (f (typingUsers s)) (readReceipts s).

Definition set_readReceipts
    (f : gmap string (gset string) → gmap string (gset string))
    (s : State) : State :=
  mkState (users s) (rooms s) (messages s) (typingUsers s) (f (readReceipts s)).

Definition with_currentRoom (r : string) (u : User) : User :=
  mkUser (u_id u) (username u) (avatar u) (joinedAt u) r (status u).

Definition with_status (st : string) (u : User) : User :=
  mkUser (u_id u) (username u) (avatar u) (joinedAt u) (currentRoom u) st.

Definition with_reactions (rs : gmap string (list string)) (m : Message)
    : Message :=
  mkMessage (m_id m) (sender m) (senderId m) (message m) (m_room m)
    (timestamp m) (m_type m) (fileData m) rs (readBy m).

(** The toggle of [add_reaction] on the reactor array of one reaction:
    [splice] the name out at its first index if it is there, [push] it
    otherwise. *)
Definition toggle (name : string) (reactors : list string) : list string :=
  match JsArray.indexOf name reactors with
  | Some userIndex => JsArray.splice1 userIndex reactors
  | None => JsArray.push name reactors
  end.

(** The [messageData] object literals of [send_message] and
    [file_uploaded]. *)
Definition text_messageData (sid : string) (env : Env) (user : User)
    (msg room : string) : Message :=
  mkMessage (uuid env) (username user) sid (Some msg) room (now env)
    text None ∅ (Some []).

Definition file_messageData (sid : string) (env : Env) (user : User)
    (fd : FileData) (room : string) : Message :=
  mkMessage (uuid env) (username user) sid None room (now env)
    file (Some fd) ∅ None.

(** ** The handlers

    Each takes the id of the socket it was registered for, the environment
    and the payload fields. The result is [None] when the handler throws (an
    uncaught [TypeError]), otherwise the registries and the calls made. *)

Definition Result : Type := option (State * list Action).

Definition on_user_join (sid : string) (env : Env) (name : string)
    (av : option string) (s : State) : Result :=
  let user := mkUser sid name av (now env) DEFAULT_ROOM "online" in
  let s' := set_users (JsMap.set sid user) s in
  Some (s',
    [ SockJoin DEFAULT_ROOM;
      Emit ToAll "user_list" (P_user_list (JsMap.values (users s')));
      broadcastToRoom DEFAULT_ROOM "user_joined"
        (P_user_room user DEFAULT_ROOM) None;
      Emit ToSender "room_list" (P_room_list (JsMap.values (rooms s')));
      Emit ToSender "message_history"
        (P_message_history DEFAULT_ROOM (message_history DEFAULT_ROOM s')) ]).

Definition on_send_message (sid : string) (env : Env) (msg : string)
    (room : option string) (s : State) : Result :=
  match getUserInfo sid s with
  | None => Some (s, [])
  | Some user =>
      let room := room_or_default room in
      let messageData := text_messageData sid env user msg room in
      let roomMessages := default [] (messages s !! room) in
      let pushed := JsArray.push messageData roomMessages in
      let kept := if decide (100 < length pushed) then JsArray.shift pushed
                  else pushed in
      Some (set_messages (insert room kept) s,
            [ broadcastToRoom room "receive_message" (P_message messageData)
                None ])
  end.

Definition on_typing (sid : string) (isTyping : bool) (room : option string)
    (s : State) : Result :=
  match getUserInfo sid s with
  | None => Some (s, [])
  | Some user =>
      let room := room_or_default room in
      let roomTyping := default [] (typingUsers s !! room) in
      let roomTyping' :=
        if isTyping then JsSet.add (username user) roomTyping
        else JsSet.delete (username user) roomTyping in
      Some (set_typingUsers (insert room roomTyping') s,
            [ broadcastToRoom room "typing_users"
                (P_typing_users roomTyping' room) (Some sid) ])
  end.

Definition on_private_message (sid : string) (env : Env) (to msg : string)
    (s : State) : Result :=
  match getUserInfo sid s with
  | None => Some (s, [])
  | Some sender =>
      let messageData b :=
        mkPrivateMessage (uuid env) (username sender) sid msg (now env) b in
      Some (s,
        [ Emit (ToRoomExcept to sid) "private_message"
            (P_private (messageData None));
          Emit ToSender "private_message"
            (P_private (messageData (Some true))) ])
  end.

Definition on_add_reaction (sid : string) (messageId reaction : string)
    (room : option string) (s : State) : Result :=
  match getUserInfo sid s with
  | None => Some (s, [])
  | Some user =>
      let room := room_or_default room in
      match messages s !! room with
      | None => Some (s, [])
      | Some roomMessages =>
          match list_find (λ m, m_id m = messageId) roomMessages with
          | None => Some (s, [])
          | Some (i, m) =>
              if inherited_key reaction then None
              else
                let reactors := default [] (reactions m !! reaction) in
                let m' :=
                  with_reactions
                    (<[reaction := toggle (username user) reactors]>
                       (reactions m)) m in
                Some (set_messages (insert room (<[i := m']> roomMessages)) s,
                      [ broadcastToRoom room "message_updated" (P_message m')
                          None ])
          end
      end
  end.

Definition on_mark_as_read (sid : string) (messageId : string)
    (room : option string) (s : State) : Result :=
  match getUserInfo sid s with
  | None => Some (s, [])
  | Some user =>
      let room := room_or_default room in
      let receipts := default ∅ (readReceipts s !! messageId) in
      Some (set_readReceipts (insert messageId ({[ sid ]} ∪ receipts)) s,
            [ broadcastToRoom room "read_receipt"
                (P_read_receipt messageId sid (username user)) None ])
  end.

Definition on_join_room (sid : string) (roomId : string) (s : State)
    : Result :=
  match getUserInfo sid s with
  | None => Some (s, [])
  | Some user =>
      let leave :=
        if truthy (currentRoom user) then [SockLeave (currentRoom user)]
        else [] in
      let user' := with_currentRoom roomId user in
      let s' := set_users (JsMap.set sid user') s in
      Some (s',
        leave ++
        [ SockJoin roomId;
          Emit ToSender "message_history"
            (P_message_history roomId (message_history roomId s'));
          broadcastToRoom roomId "user_joined_room" (P_user_room user' roomId)
            None ])
  end.

Definition on_create_room (sid : string) (env : Env) (name : string)
    (private : option bool) (s : State) : Result :=
  match getUserInfo sid s with
  | None => Some (s, [])
  | Some user =>
      let roomId := uuid env in
      let room :=
        mkRoom roomId name (Some (username user)) (now env)
          (Some (default false private)) in
      let s1 := set_rooms (JsMap.set roomId room) s in
      let s2 := set_messages (insert roomId []) s1 in
      let s3 := set_typingUsers (insert roomId []) s2 in
      let s4 := set_users (JsMap.set sid (with_currentRoom roomId user)) s3 in
      Some (s4,
        [ Emit ToAll "room_list" (P_room_list (JsMap.values (rooms s3)));
          SockJoin roomId;
          Emit ToSender "room_created" (P_room room) ])
  end.

Definition on_file_uploaded (sid : string) (env : Env) (fd : FileData)
    (room : option string) (s : State) : Result :=
  match getUserInfo sid s with
  | None => Some (s, [])
  | Some user =>
      let room := room_or_default room in
      let messageData := file_messageData sid env user fd room in
      let roomMessages := default [] (messages s !! room) in
      Some (set_messages (insert room (JsArray.push messageData roomMessages)) s,
            [ broadcastToRoom room "receive_message" (P_message messageData)
                None ])
  end.

Definition on_disconnect (sid : string) (s : State) : Result :=
  match getUserInfo sid s with
  | None => Some (s, [])
  | Some user =>
      let s1 := set_typingUsers (fmap (JsSet.delete (username user))) s in
      let s2 := set_users (JsMap.delete sid) s1 in
      Some (s2,
        [ broadcastToRoom (currentRoom user) "user_left"
            (P_user_room user (currentRoom user)) None;
          Emit ToAll "user_list" (P_user_list (JsMap.values (users s2))) ])
  end.

Definition on_update_status (sid : string) (st : string) (s : State)
    : Result :=
  match getUserInfo sid s with
  | None => Some (s, [])
  | Some user =>
      Some (set_users (JsMap.set sid (with_status st user)) s,
            [ Emit ToAll "user_status_changed"
                (P_status sid (username user) st) ])
  end.

(** The dispatch made by the [socket.on] registrations of one connection. *)
Definition handle (sid : string) (env : Env) (ev : Event) (s : State)
    : Result :=
  match ev with
  | user_join name av => on_user_join sid env name av s
  | send_message msg room => on_send_message sid env msg room s
  | typing isTyping room => on_typing sid isTyping room s
  | private_message to msg => on_private_message sid env to msg s
  | add_reaction messageId reaction room =>
      on_add_reaction sid messageId reaction room s
  | mark_as_read messageId room => on_mark_as_read sid messageId room s
  | join_room roomId => on_join_room sid roomId s
  | create_room name private => on_create_room sid env name private s
  | file_uploaded fd room => on_file_uploaded sid env fd room s
  | disconnect => on_disconnect sid s
  | update_status st => on_update_status sid st s
  end.

(** ** Runs of the server *)

(** One input: the socket an event arrived on, what the environment returns
    while it is handled, and the event. *)
Record Input := mkInput { in_sid : string; in_env : Env; in_event : Event }.

Definition step (s : State) (i : Input) : option State :=
  fst <$> handle (in_sid i) (in_env i) (in_event i) s.

(** Handles the inputs in order; [None] once a handler has thrown. *)
Fixpoint run (s : State) (tr : list Input) : option State :=
  match tr with
  | [] => Some s
  | i :: tr' =>
      match step s i with
      | Some s' => run s' tr'
      | None => None
      end
  end.

(** The states the server can be in. *)
Definition reachable (s : State) : Prop :=
  ∃ t0 tr, run (init t0) tr = Some s.

(** ** Sample inputs *)

Module Sample.
Definition env (n : string) : Env := mkEnv ("id-" +:+ n) ("t-" +:+ n).
Definition inp (sid n : string) (ev : Event) : Input :=
  mkInput sid (env n) ev.
Definition start : State := init "t-0".

(** The state reached from [start] by the inputs, [start] itself if a
    handler throws. *)
Definition after (tr : list Input) : State := default start (run start tr).

Definition pic : FileData :=
  mkFileData "1-a.png" "a.png" 10 "image/png" "/uploads/1-a.png".
End Sample.

(** ** Vocabulary of the properties *)

Definition is_user_join (ev : Event) : bool :=
  match ev with
  | user_join _ _ => true
  | _ => false
  end.

(** A registered user typing in two rooms: the default room and a room
    created on the way. *)
Definition typing_in_two_rooms : State :=
  Sample.after
    [ Sample.inp "s1" "1" (user_join "alice" None);
      Sample.inp "s1" "2" (typing true None);
      Sample.inp "s1" "3" (create_room "devs" None);
      Sample.inp "s1" "4" (typing true (Some "id-3")) ].

(** The log of a room, empty when the room has none. *)
Definition log_of (r : string) (s : State) : list Message :=
  default [] (messages s !! r).

(** The message a handler finds for an id in a room's log: the first one. *)
Definition find_message (r messageId : string) (s : State) : option Message :=
  snd <$> list_find (λ m, m_id m = messageId) (log_of r s).

(** The socket ids recorded as having read a message id. *)
Definition receipts_of (messageId : string) (s : State) : gset string :=
  default ∅ (readReceipts s !! messageId).

(** A [user_join] is rejected when, whatever the handler returns, the
    [users] registry is as it was. *)
Definition join_rejected (sid : string) (env : Env) (name : string)
    (av : option string) (s : State) : Prop :=
  ∀ s' acts,
    handle sid env (user_join name av) s = Some (s', acts) →
    users s' = users s.

(** Alice has joined and sent one message, which got the id ["id-2"]. *)
Definition alice_said_hi : State :=
  Sample.after
    [ Sample.inp "s1" "1" (user_join "alice" None);
      Sample.inp "s1" "2" (send_message "hi" None) ].

Definition alice : User := mkUser "s1" "alice" None "t-1" "global" "online".

(** Alice has joined on socket ["s1"]. *)
Definition alice_joined : State :=
  Sample.after [ Sample.inp "s1" "1" (user_join "alice" None) ].

(** ** Appends *)

(** The events that append to the log of room [r]. *)
Definition is_append_to (r : string) (ev : Event) : bool :=
  match ev with
  | send_message _ room | file_uploaded _ room =>
      bool_decide (room_or_default room = r)
  | _ => false
  end.

(** The message an append by user [u] stores. *)
Definition appended_message (u : User) (i : Input) : option Message :=
  match in_event i with
  | send_message msg room =>
      Some (text_messageData (in_sid i) (in_env i) u msg (room_or_default room))
  | file_uploaded fd room =>
      Some (file_messageData (in_sid i) (in_env i) u fd (room_or_default room))
  | _ => None
  end.

(** The messages a run of appends stores, in the order of the inputs; the
    senders are looked up in [s], appends leaving [users] alone. *)
Definition appended (s : State) (tr : list Input) : list Message :=
  omap (λ i, getUserInfo (in_sid i) s ≫= λ u, appended_message u i) tr.

Definition append_by_registered (r : string) (s : State) (i : Input) : Prop :=
  is_append_to r (in_event i) = true ∧ is_Some (getUserInfo (in_sid i) s).

(** [n] file uploads to the default room on socket ["s1"]; the [k]-th gets
    the id ["id-u"] followed by [k], counting from 0. *)
Definition uploads (n : nat) : list Input :=
  (λ k, Sample.inp "s1" ("u" +:+ pretty k) (file_uploaded Sample.pic None))
    <$> seq 0 n.

(** Alice joins and uploads 101 files to the default room. *)
Definition flooded : State :=
  Sample.after (Sample.inp "s1" "1" (user_join "alice" None) :: uploads 101).

(** Alice joins and sends three messages to the default room. *)
Definition three_appends : list Input :=
  [ Sample.inp "s1" "2" (send_message "one" None);
    Sample.inp "s1" "3" (file_uploaded Sample.pic (Some "global"));
    Sample.inp "s1" "4" (send_message "three" None) ].

(** ** Rooms referred to *)

(** Every registered user's [currentRoom] and every stored message's [room]
    is the key of a room in [rooms]. *)
Definition refs_exist (s : State) : Prop :=
  (∀ sid u, getUserInfo sid s = Some u →
     is_Some (JsMap.get (currentRoom u) (rooms s)))
  ∧ (∀ r log m, messages s !! r = Some log → m ∈ log →
       is_Some (JsMap.get (m_room m) (rooms s))).

(** The event names a room only if [rooms] has it: the [roomId] of
    [join_room], the [room] of [send_message] and [file_uploaded]. *)
Definition names_existing_room (s : State) (ev : Event) : bool :=
  match ev with
  | join_room roomId => JsMap.has roomId (rooms s)
  | send_message _ room | file_uploaded _ room =>
      JsMap.has (room_or_default room) (rooms s)
  | _ => true
  end.

(** Along the run from [s], every input names an existing room when it is
    handled. *)
Fixpoint rooms_named_exist (s : State) (tr : list Input) : bool :=
  match tr with
  | [] => true
  | i :: tr' =>
      names_existing_room s (in_event i)
      && match step s i with
         | Some s' => rooms_named_exist s' tr'
         | None => true
         end
  end.

(** Alice joins, switches to a room nobody created, and writes to another. *)
Definition stray_trace : list Input :=
  [ Sample.inp "s1" "1" (user_join "alice" None);
    Sample.inp "s1" "2" (join_room "nowhere");
    Sample.inp "s1" "3" (send_message "hi" (Some "elsewhere")) ].

Definition stray : State := Sample.after stray_trace.

(** Alice joins, creates a room, writes there, and goes back. *)
Definition tidy_trace : list Input :=
  [ Sample.inp "s1" "1" (user_join "alice" None);
    Sample.inp "s1" "2" (create_room "devs" None);
    Sample.inp "s1" "3" (send_message "hi" (Some "id-2"));
    Sample.inp "s1" "4" (join_room "global") ].

(** ** Reactor sets *)

(** The reactors recorded for reaction [k] on the message found for
    [messageId] in room [r]; none when the message has no such key. *)
Definition reactors_of (r messageId k : string) (s : State) : list string :=
  match find_message r messageId s with
  | Some m => default [] (reactions m !! k)
  | None => []
  end.

(** No reactor array holds a name twice. *)
Definition reactors_distinct (s : State) : Prop :=
  ∀ r log m k l,
    messages s !! r = Some log → m ∈ log → reactions m !! k = Some l →
    NoDup l.

(** ** Where a stored message comes from

    After one handler, a message of a log was in a log before, or is the
    message the handler appended, or is the message [add_reaction] rewrote
    with one reactor array toggled. *)
Inductive message_origin (sid : string) (env : Env) (ev : Event) (s : State)
    (m' : Message) : Prop :=
| origin_kept (r : string) (log : list Message) :
    messages s !! r = Some log → m' ∈ log →
    message_origin sid env ev s m'
| origin_text (u : User) (msg : string) (room : option string) :
    ev = send_message msg room →
    getUserInfo sid s = Some u →
    m' = text_messageData sid env u msg (room_or_default room) →
    message_origin sid env ev s m'
| origin_file (u : User) (fd : FileData) (room : option string) :
    ev = file_uploaded fd room →
    getUserInfo sid s = Some u →
    m' = file_messageData sid env u fd (room_or_default room) →
    message_origin sid env ev s m'
| origin_reacted (u : User) (messageId k : string) (room : option string)
    (log : list Message) (m : Message) :
    ev = add_reaction messageId k room →
    getUserInfo sid s = Some u →
    messages s !! room_or_default room = Some log → m ∈ log →
    m' = with_reactions
           (<[k := toggle (username u) (default [] (reactions m !! k))]>
              (reactions m)) m →
    message_origin sid env ev s m'.

(** The form in which [refs_exist] is carried along a run: stated on the
    entries of [users], and with the default room in [rooms]. *)
Definition rooms_inv (s : State) : Prop :=
  is_Some (JsMap.get DEFAULT_ROOM (rooms s))
  ∧ (∀ k u, (k, u) ∈ users s →
       is_Some (JsMap.get (currentRoom u) (rooms s)))
  ∧ (∀ r log m, messages s !! r = Some log → m ∈ log →
       is_Some (JsMap.get (m_room m) (rooms s))).

(** ** Query endpoints *)

(** [GET /api/messages/:roomId]: the room's whole log, empty for a room
    without one. *)
Definition api_messages (roomId : string) (s : State) : list Message :=
  default [] (messages s !! roomId).

(** [GET /api/users] and [GET /api/rooms]. *)
Definition api_users (s : State) : list User := JsMap.values (users s).

Definition api_rooms (s : State) : list Room := JsMap.values (rooms s).

(** [GET /health]: [users.size], [rooms.size] and the time read. *)
Record Health := mkHealth {
  h_status : string;
  h_users : nat;
  h_rooms : nat;
  h_timestamp : string
}.

Definition health (env : Env) (s : State) : Health :=
  mkHealth "ok" (length (users s)) (length (rooms s)) (now env).

(** ** Well-formed registries *)

(** Socket ids are keys of [users] once each, and a user is stored under
    its own id. *)
Definition users_wf (s : State) : Prop :=
  NoDup (users s).*1 ∧ ∀ k u, (k, u) ∈ users s → u_id u = k.

(** Room ids are keys of [rooms] once each, a room is stored under its own
    id, and the default room comes first. *)
Definition rooms_wf (s : State) : Prop :=
  NoDup (rooms s).*1
  ∧ (∀ k r, (k, r) ∈ rooms s → r_id r = k)
  ∧ head (rooms s).*1 = Some DEFAULT_ROOM.

(** ** How one handler changes each registry *)

Inductive users_change (sid : string) (env : Env) (ev : Event) (s : State)
    (us' : list (string * User)) : Prop :=
| users_same :
    us' = users s → users_change sid env ev s us'
| users_joined (name : string) (av : option string) :
    ev = user_join name av →
    us' = JsMap.set sid (mkUser sid name av (now env) DEFAULT_ROOM "online")
            (users s) →
    users_change sid env ev s us'
| users_moved (u : User) (r : string) :
    getUserInfo sid s = Some u →
    ev = join_room r ∨ (∃ name p, ev = create_room name p ∧ r = uuid env) →
    us' = JsMap.set sid (with_currentRoom r u) (users s) →
    users_change sid env ev s us'
| users_status (u : User) (st : string) :
    getUserInfo sid s = Some u →
    ev = update_status st →
    us' = JsMap.set sid (with_status st u) (users s) →
    users_change sid env ev s us'
| users_left (u : User) :
    getUserInfo sid s = Some u →
    ev = disconnect →
    us' = JsMap.delete sid (users s) →
    users_change sid env ev s us'.

Inductive rooms_change (sid : string) (env : Env) (ev : Event) (s : State)
    (rs' : list (string * Room)) : Prop :=
| rooms_same :
    rs' = rooms s → rooms_change sid env ev s rs'
| rooms_created (u : User) (name : string) (p : option bool) :
    getUserInfo sid s = Some u →
    ev = create_room name p →
    rs' = JsMap.set (uuid env)
            (mkRoom (uuid env) name (Some (username u)) (now env)
               (Some (default false p)))
            (rooms s) →
    rooms_change sid env ev s rs'.

Inductive messages_change (sid : string) (env : Env) (ev : Event) (s : State)
    (ms' : gmap string (list Message)) : Prop :=
| messages_same :
    ms' = messages s → messages_change sid env ev s ms'
| messages_text (u : User) (msg : string) (room : option string) :
    getUserInfo sid s = Some u →
    ev = send_message msg room →
    let r := room_or_default room in
    let pushed := JsArray.push (text_messageData sid env u msg r) (log_of r s) in
    ms' = <[r := if decide (100 < length pushed) then JsArray.shift pushed
                 else pushed]> (messages s) →
    messages_change sid env ev s ms'
| messages_file (u : User) (fd : FileData) (room : option string) :
    getUserInfo sid s = Some u →
    ev = file_uploaded fd room →
    let r := room_or_default room in
    ms' = <[r := JsArray.push (file_messageData sid env u fd r) (log_of r s)]>
            (messages s) →
    messages_change sid env ev s ms'
| messages_reacted (u : User) (messageId k : string) (room : option string)
    (log : list Message) (i : nat) (m : Message) :
    getUserInfo sid s = Some u →
    ev = add_reaction messageId k room →
    messages s !! room_or_default room = Some log →
    list_find (λ m, m_id m = messageId) log = Some (i, m) →
    inherited_key k = false →
    ms' = <[room_or_default room :=
              <[i := with_reactions
                       (<[k := toggle (username u)
                                 (default [] (reactions m !! k))]>
                          (reactions m)) m]> log]> (messages s) →
    messages_change sid env ev s ms'
| messages_room_created (u : User) (name : string) (p : option bool) :
    getUserInfo sid s = Some u →
    ev = create_room name p →
    ms' = <[uuid env := []]> (messages s) →
    messages_change sid env ev s ms'.

Inductive typing_change (sid : string) (env : Env) (ev : Event) (s : State)
    (ts' : gmap string (list string)) : Prop :=
| typing_same :
    ts' = typingUsers s → typing_change sid env ev s ts'
| typing_signal (u : User) (isTyping : bool) (room : option string) :
    getUserInfo sid s = Some u →
    ev = typing isTyping room →
    let r := room_or_default room in
    let old := default [] (typingUsers s !! r) in
    ts' = <[r := if isTyping then JsSet.add (username u) old
                 else JsSet.delete (username u) old]> (typingUsers s) →
    typing_change sid env ev s ts'
| typing_room_created (u : User) (name : string) (p : option bool) :
    getUserInfo sid s = Some u →
    ev = create_room name p →
    ts' = <[uuid env := []]> (typingUsers s) →
    typing_change sid env ev s ts'
| typing_cleared (u : User) :
    getUserInfo sid s = Some u →
    ev = disconnect →
    ts' = JsSet.delete (username u) <$> typingUsers s →
    typing_change sid env ev s ts'.

Inductive receipts_change (sid : string) (ev : Event) (s : State)
    (rr' : gmap string (gset string)) : Prop :=
| receipts_same :
    rr' = readReceipts s → receipts_change sid ev s rr'
| receipts_marked (u : User) (messageId : string) (room : option string) :
    getUserInfo sid s = Some u →
    ev = mark_as_read messageId room →
    rr' = <[messageId := {[ sid ]} ∪ receipts_of messageId s]>
            (readReceipts s) →
    receipts_change sid ev s rr'.

(** Splits the result of a handler along its tests. *)
Ltac split_handler H :=
  unfold on_user_join, on_send_message, on_typing, on_private_message,
    on_add_reaction, on_mark_as_read, on_join_room, on_create_room,
    on_file_uploaded, on_disconnect, on_update_status in H;
  repeat match type of H with
  | context [match getUserInfo ?a ?b with _ => _ end] =>
      destruct (getUserInfo a b) eqn:?
  | context [match messages ?b !! ?k with _ => _ end] =>
      destruct (messages b !! k) eqn:?
  | context [match list_find ?P ?l with _ => _ end] =>
      destruct (list_find P l) as [[? ?]|] eqn:?
  | context [if inherited_key ?k then _ else _] =>
      destruct (inherited_key k) eqn:?
  end;
  try discriminate H; injection H as <- <-.

(** Alice and Bob have joined, Alice has created a room and typed there. *)
Definition two_users : State :=
  Sample.after
    [ Sample.inp "s1" "1" (user_join "alice" None);
      Sample.inp "s2" "2" (user_join "bob" (Some "b.png"));
      Sample.inp "s1" "3" (create_room "devs" (Some true));
      Sample.inp "s1" "4" (typing true (Some "id-3"));
      Sample.inp "s2" "5" (send_message "hello" None) ].

Definition two_users_trace : list Input :=
  [ Sample.inp "s1" "1" (user_join "alice" None);
    Sample.inp "s2" "2" (user_join "bob" (Some "b.png"));
    Sample.inp "s1" "3" (create_room "devs" (Some true));
    Sample.inp "s1" "4" (typing true (Some "id-3"));
    Sample.inp "s2" "5" (send_message "hello" None) ].

(** ** Identities *)

Definition is_disconnect (ev : Event) : bool :=
  match ev with
  | disconnect => true
  | _ => false
  end.

(** The input is not a [user_join] or a [disconnect] arriving on [sid]. *)
Definition keeps_identity (sid : string) (i : Input) : bool :=
  negb (bool_decide (in_sid i = sid)
        && (is_user_join (in_event i) || is_disconnect (in_event i))).

(** Two sockets registered under the same name; the one on ["s1"] is typing
    in the default room. *)
Definition same_name : State :=
  Sample.after
    [ Sample.inp "s1" "1" (user_join "alice" None);
      Sample.inp "s2" "2" (user_join "alice" None);
      Sample.inp "s1" "3" (typing true None) ].

(** ** Typing sets *)

(** No typing set holds a name twice. *)
Definition typing_distinct (s : State) : Prop :=
  ∀ r ts, typingUsers s !! r = Some ts → NoDup ts.

(** ** Message logs *)

Definition is_file_uploaded (ev : Event) : bool :=
  match ev with
  | file_uploaded _ _ => true
  | _ => false
  end.

(** The events that send a text message to room [r]. *)
Definition is_text_to (r : string) (ev : Event) : bool :=
  match ev with
  | send_message _ room => bool_decide (room_or_default room = r)
  | _ => false
  end.

Definition text_by_registered (r : string) (s : State) (i : Input) : Prop :=
  is_text_to r (in_event i) = true ∧ is_Some (getUserInfo (in_sid i) s).

(** Every log holds at most 100 messages. *)
Definition logs_bounded (s : State) : Prop :=
  ∀ r log, messages s !! r = Some log → length log ≤ 100.

(** Every message is kept in the log of the room it names. *)
Definition logs_filed (s : State) : Prop :=
  ∀ r log m, messages s !! r = Some log → m ∈ log → m_room m = r.

(** The ids of the messages in the log of room [r], in order. *)
Definition ids_of (r : string) (s : State) : list string :=
  m_id <$> log_of r s.

(** The ids in the logs are among [used], occur once in their log, and in
    one log only. *)
Definition ids_fresh (used : list string) (s : State) : Prop :=
  (∀ r x, x ∈ ids_of r s → x ∈ used)
  ∧ (∀ r, NoDup (ids_of r s))
  ∧ (∀ r1 r2 x, x ∈ ids_of r1 s → x ∈ ids_of r2 s → r1 = r2).

(** The values [uuidv4()] returns along a run. *)
Definition uuids (tr : list Input) : list string :=
  (λ i, uuid (in_env i)) <$> tr.

(** A message as it was stored: without reactions. *)
Definition envelope (m : Message) : Message := with_reactions ∅ m.

(** The two forms of a stored message: a text message has a text, no file
    and an empty [readBy]; a file message has a file, no text and no
    [readBy]. *)
Definition stored_form (m : Message) : Prop :=
  (m_type m = text ∧ is_Some (message m) ∧ fileData m = None
   ∧ readBy m = Some [])
  ∨ (m_type m = file ∧ message m = None ∧ is_Some (fileData m)
     ∧ readBy m = None).

Definition logs_in_stored_form (s : State) : Prop :=
  ∀ r log m, messages s !! r = Some log → m ∈ log → stored_form m.

(** [n] text messages to the default room on socket ["s1"]; the [k]-th gets
    the id ["id-m"] followed by [k], counting from 0. *)
Definition texts (n : nat) : list Input :=
  (λ k, Sample.inp "s1" ("m" +:+ pretty k) (send_message "hi" None))
    <$> seq 0 n.

(** ** Which events touch which registry *)

Definition may_change_users (ev : Event) : bool :=
  match ev with
  | user_join _ _ | join_room _ | create_room _ _ | update_status _
  | disconnect => true
  | _ => false
  end.

Definition may_change_rooms (ev : Event) : bool :=
  match ev with
  | create_room _ _ => true
  | _ => false
  end.

Definition may_change_messages (ev : Event) : bool :=
  match ev with
  | send_message _ _ | file_uploaded _ _ | add_reaction _ _ _
  | create_room _ _ => true
  | _ => false
  end.

Definition may_change_typing (ev : Event) : bool :=
  match ev with
  | typing _ _ | create_room _ _ | disconnect => true
  | _ => false
  end.

Definition may_change_receipts (ev : Event) : bool :=
  match ev with
  | mark_as_read _ _ => true
  | _ => false
  end.

(** ** Rooms a socket has joined *)

(** The effect of the [socket.join] and [socket.leave] calls of one handler
    on the set of rooms its socket is in. *)
Definition joined_after (acts : list Action) (joined : gset string)
    : gset string :=
  foldl (λ j a, match a with
                | SockJoin r => j ∪ {[ r ]}
                | SockLeave r => j ∖ {[ r ]}
                | Emit _ _ _ => j
                end) joined acts.

(** A run that also keeps, for every socket, the rooms that the handlers'
    calls have left it in. (The room socket.io makes for a socket's own id,
    and the cleanup it does when a socket closes, are not part of it.) *)
Fixpoint run_joined (s : State) (js : gmap string (gset string))
    (tr : list Input) : option (State * gmap string (gset string)) :=
  match tr with
  | [] => Some (s, js)
  | i :: tr' =>
      match handle (in_sid i) (in_env i) (in_event i) s with
      | Some (s', acts) =>
          run_joined s'
            (<[in_sid i := joined_after acts (default ∅ (js !! in_sid i))]> js)
            tr'
      | None => None
      end
  end.

(** Every registered socket is in the room recorded as its current room. *)
Definition in_current_room (s : State) (js : gmap string (gset string))
    : Prop :=
  ∀ sid u, getUserInfo sid s = Some u →
           currentRoom u ∈ default ∅ (js !! sid).

(** ** The client's copy of the messages

    The state updates that the hook [useSocket] applies to its [messages]
    array on [read_receipt] and [message_updated]. The array holds what the
    server sent (stored and private messages, whose ids are strings) and the
    system messages the hook makes itself (whose id is [Date.now()], a
    number). The updates read and write [id] and [readBy] only; the other
    fields of a message are carried along in [c_rest]. *)
Module Client.
Inductive MsgId := IdStr (s : string) | IdNum (n : Z).

Record Msg (R : Type) := mkMsg {
  c_id : MsgId;
  c_readBy : option (list string);
  c_rest : R
}.
Arguments mkMsg {R} _ _ _.
Arguments c_id {R} _.
Arguments c_readBy {R} _.
Arguments c_rest {R} _.

(** [a === b] on ids: a string and a number are never equal. *)
Definition strict_eq (a b : MsgId) : bool :=
  match a, b with
  | IdStr x, IdStr y => bool_decide (x = y)
  | IdNum x, IdNum y => bool_decide (x = y)
  | _, _ => false
  end.

(** The updater of [onReadReceipt]. *)
Definition onReadReceipt {R : Type} (messageId : string) (uname : string)
    (prev : list (Msg R)) : list (Msg R) :=
  (λ msg,
     if strict_eq (c_id msg) (IdStr messageId) then
       let readBy := default [] (c_readBy msg) in
       if bool_decide (uname ∈ readBy) then msg
       else mkMsg (c_id msg) (Some (readBy ++ [uname])) (c_rest msg)
     else msg) <$> prev.

(** The updater of [onMessageUpdated]. *)
Definition onMessageUpdated {R : Type} (updatedMessage : Msg R)
    (prev : list (Msg R)) : list (Msg R) :=
  (λ msg, if strict_eq (c_id msg) (c_id updatedMessage) then updatedMessage
          else msg) <$> prev.

(** A client's array: a stored message read by Bob, and a system message. *)
Definition sample : list (Msg string) :=
  [ mkMsg (IdStr "id-2") (Some ["bob"]) "hi";
    mkMsg (IdNum 1700000000000) None "alice joined the chat" ].
End Client.

(** * Properties *)

(** ** The identity check shared by the handlers *)

(** C7. Every handler except [user_join] returns at once when the sending
    socket has no entry in [users]: the five registries are left as they
    were and no call is made on the socket.io API, so nothing is emitted. *)
Theorem unregistered_sender_is_ignored (sid : string) (env : Env)
    (ev : Event) (s : State) :
  getUserInfo sid s = None →
  is_user_join ev = false →
  handle sid env ev s = Some (s, []).
Proof.
  intros Hnone Hkind.
  destruct ev; simpl in Hkind; try discriminate; simpl;
    [ unfold on_send_message | unfold on_typing | unfold on_private_message
    | unfold on_add_reaction | unfold on_mark_as_read | unfold on_join_room
    | unfold on_create_room | unfold on_file_uploaded | unfold on_disconnect
    | unfold on_update_status ];
    rewrite Hnone; reflexivity.
Qed.

Lemma unregistered_sender_is_ignored_witness :
  handle "s1" (Sample.env "1") (send_message "hi" None) Sample.start
    = Some (Sample.start, [])
  ∧ handle "s1" (Sample.env "1") disconnect Sample.start
    = Some (Sample.start, []).
Proof.
  split; apply unregistered_sender_is_ignored; reflexivity.
Defined.

(** ** Reactions and read receipts on unknown targets *)

(** C9. [add_reaction] from a registered user returns before any mutation
    and before the broadcast when the named room has no message log, or when
    no message of that log has the given id: the registries are unchanged and
    nothing is emitted. *)
Theorem add_reaction_unknown_target_is_ignored (sid : string) (env : Env)
    (s : State) (u : User) (messageId reaction : string)
    (room : option string) :
  getUserInfo sid s = Some u →
  (messages s !! room_or_default room = None
   ∨ ∃ log, messages s !! room_or_default room = Some log
            ∧ ∀ m, m ∈ log → m_id m ≠ messageId) →
  handle sid env (add_reaction messageId reaction room) s = Some (s, []).
Proof.
  intros Hu Hmiss. simpl. unfold on_add_reaction. rewrite Hu.
  destruct Hmiss as [-> | (log & -> & Hnone)]; [reflexivity|].
  assert (list_find (λ m, m_id m = messageId) log = None) as ->; [|reflexivity].
  apply list_find_None, Forall_forall. exact Hnone.
Qed.

Lemma add_reaction_unknown_target_is_ignored_witness :
  handle "s1" (Sample.env "9") (add_reaction "id-7" "like" (Some "nowhere"))
    typing_in_two_rooms = Some (typing_in_two_rooms, [])
  ∧ handle "s1" (Sample.env "9") (add_reaction "id-7" "like" None)
      typing_in_two_rooms = Some (typing_in_two_rooms, []).
Proof.
  split.
  - apply (add_reaction_unknown_target_is_ignored "s1" (Sample.env "9")
             typing_in_two_rooms
             (mkUser "s1" "alice" None "t-1" "id-3" "online")).
    + vm_compute. reflexivity.
    + left. vm_compute. reflexivity.
  - apply (add_reaction_unknown_target_is_ignored "s1" (Sample.env "9")
             typing_in_two_rooms
             (mkUser "s1" "alice" None "t-1" "id-3" "online")).
    + vm_compute. reflexivity.
    + right. exists []. split; [vm_compute; reflexivity|].
      intros m Hm. inversion Hm.
Defined.

(** C10. [mark_as_read] from a registered user records the receipt and
    broadcasts [read_receipt], carrying the message id, the reader's socket
    id and the reader's username, to the named room. No log is consulted:
    this holds in every state, whether or not a message with that id exists. *)
Theorem mark_as_read_always_broadcasts (sid : string) (env : Env) (s : State)
    (u : User) (messageId : string) (room : option string) :
  getUserInfo sid s = Some u →
  ∃ s',
    handle sid env (mark_as_read messageId room) s
      = Some (s', [ Emit (ToRoom (room_or_default room)) "read_receipt"
                      (P_read_receipt messageId sid (username u)) ])
    ∧ ∃ receipts, readReceipts s' !! messageId = Some receipts
                  ∧ sid ∈ receipts.
Proof.
  intros Hu. simpl. unfold on_mark_as_read. rewrite Hu.
  eexists. split; [reflexivity|]. simpl.
  eexists. split; [apply lookup_insert_eq|]. set_solver.
Qed.

Lemma mark_as_read_always_broadcasts_witness :
  (∀ r log, messages typing_in_two_rooms !! r = Some log → log = [])
  ∧ ∃ s',
      handle "s1" (Sample.env "9") (mark_as_read "no-such-id" None)
        typing_in_two_rooms
      = Some (s', [ Emit (ToRoom "global") "read_receipt"
                      (P_read_receipt "no-such-id" "s1" "alice") ])
      ∧ ∃ receipts, readReceipts s' !! "no-such-id" = Some receipts
                    ∧ "s1" ∈ receipts.
Proof.
  split.
  - intros r log.
    destruct (decide (r = "global")) as [->|Hg];
      [vm_compute; congruence|].
    destruct (decide (r = "id-3")) as [->|Hd];
      [vm_compute; congruence|].
    change (messages typing_in_two_rooms)
      with (<["id-3" := []]> ({["global" := []]} : gmap string (list Message))).
    rewrite lookup_insert_ne, lookup_singleton_ne by done. discriminate.
  - apply (mark_as_read_always_broadcasts "s1" (Sample.env "9")
             typing_in_two_rooms
             (mkUser "s1" "alice" None "t-1" "id-3" "online")).
    vm_compute. reflexivity.
Defined.

(** ** Typing sets on disconnect *)

Lemma JsSet_delete_spec (x y : string) (s : list string) :
  y ∈ JsSet.delete x s ↔ y ≠ x ∧ y ∈ s.
Proof. unfold JsSet.delete. by rewrite list_elem_of_filter. Qed.

(** C8. When a registered user disconnects, every room's typing set is kept
    under its key with the user's username removed, and with the other names
    as they were; so the username is in no typing set afterwards, however
    many rooms it was typing in. *)
Theorem disconnect_clears_typing (sid : string) (env : Env) (s : State)
    (u : User) :
  getUserInfo sid s = Some u →
  ∃ s' acts,
    handle sid env disconnect s = Some (s', acts)
    ∧ (∀ r ts, typingUsers s' !! r = Some ts → username u ∉ ts)
    ∧ (∀ r ts, typingUsers s !! r = Some ts →
         ∃ ts', typingUsers s' !! r = Some ts'
                ∧ ∀ x, x ∈ ts' ↔ x ≠ username u ∧ x ∈ ts).
Proof.
  intros Hu. simpl. unfold on_disconnect. rewrite Hu.
  do 2 eexists. split; [reflexivity|]. simpl. split.
  - intros r ts Hr. rewrite lookup_fmap in Hr.
    destruct (typingUsers s !! r) as [ts0|]; simpl in Hr; [|discriminate].
    injection Hr as <-. rewrite JsSet_delete_spec. tauto.
  - intros r ts Hr. exists (JsSet.delete (username u) ts). split.
    + rewrite lookup_fmap, Hr. reflexivity.
    + intros x. apply JsSet_delete_spec.
Qed.

Lemma disconnect_clears_typing_witness :
  typingUsers typing_in_two_rooms !! "global" = Some ["alice"]
  ∧ typingUsers typing_in_two_rooms !! "id-3" = Some ["alice"]
  ∧ ∃ s' acts,
      handle "s1" (Sample.env "5") disconnect typing_in_two_rooms
        = Some (s', acts)
      ∧ (∀ r ts, typingUsers s' !! r = Some ts → "alice" ∉ ts)
      ∧ (∀ r ts, typingUsers typing_in_two_rooms !! r = Some ts →
           ∃ ts', typingUsers s' !! r = Some ts'
                  ∧ ∀ x, x ∈ ts' ↔ x ≠ "alice" ∧ x ∈ ts).
Proof.
  split; [vm_compute; reflexivity|].
  split; [vm_compute; reflexivity|].
  apply (disconnect_clears_typing "s1" (Sample.env "5") typing_in_two_rooms
           (mkUser "s1" "alice" None "t-1" "id-3" "online")).
  vm_compute. reflexivity.
Defined.

(** ** The insertion-ordered map *)

Section JsMap_facts.
Context {V : Type}.
Implicit Types (m : list (string * V)) (k : string) (v : V).

Lemma JsMap_get_set_eq k v m : JsMap.get k (JsMap.set k v m) = Some v.
Proof.
  induction m as [|[k' v'] m IH]; simpl.
  - by rewrite decide_True.
  - destruct (decide (k = k')) as [->|Hne]; simpl.
    + by rewrite decide_True.
    + by rewrite decide_False.
Qed.

Lemma JsMap_get_set_ne k k' v m :
  k' ≠ k → JsMap.get k' (JsMap.set k v m) = JsMap.get k' m.
Proof.
  intros Hne. induction m as [|[k0 v0] m IH]; simpl.
  - by rewrite decide_False.
  - destruct (decide (k = k0)) as [->|Hk]; simpl.
    + by rewrite !decide_False.
    + destruct (decide (k' = k0)); [done|]. exact IH.
Qed.

Lemma JsMap_set_keys_present k v m :
  is_Some (JsMap.get k m) → (JsMap.set k v m).*1 = m.*1.
Proof.
  induction m as [|[k0 v0] m IH]; simpl.
  - by intros [? ?].
  - destruct (decide (k = k0)) as [->|Hk]; csimpl; [done|].
    intros H. f_equal. by apply IH.
Qed.

Lemma JsMap_get_elem_of k v m : JsMap.get k m = Some v → (k, v) ∈ m.
Proof.
  induction m as [|[k0 v0] m IH]; simpl; [done|].
  destruct (decide (k = k0)) as [->|Hk].
  - intros [= ->]. left.
  - intros H. right. by apply IH.
Qed.

Lemma JsMap_set_elem_of k v k' v' m :
  (k', v') ∈ JsMap.set k v m → (k', v') = (k, v) ∨ (k', v') ∈ m.
Proof.
  induction m as [|[k0 v0] m IH]; simpl.
  - intros H%list_elem_of_singleton. by left.
  - destruct (decide (k = k0)) as [->|Hk].
    + intros [->|H]%elem_of_cons; [by left|]. right. by right.
    + intros [->|H]%elem_of_cons; [right; left|].
      destruct (IH H) as [?|?]; [by left|]. right. by right.
Qed.

Lemma JsMap_delete_elem_of k k' v' m :
  (k', v') ∈ JsMap.delete k m → (k', v') ∈ m.
Proof.
  induction m as [|[k0 v0] m IH]; simpl; [done|].
  destruct (decide (k = k0)) as [->|Hk].
  - intros H. by right.
  - intros [->|H]%elem_of_cons; [left|]. right. by apply IH.
Qed.

Lemma JsMap_elem_of_get_is_Some k v m :
  (k, v) ∈ m → is_Some (JsMap.get k m).
Proof.
  induction m as [|[k0 v0] m IH]; simpl.
  - by intros ?%elem_of_nil.
  - destruct (decide (k = k0)); [eauto|].
    intros [[= ? ?]|H]%elem_of_cons; [done|]. by apply IH.
Qed.

Lemma JsMap_get_is_Some_set k k' v m :
  is_Some (JsMap.get k' m) → is_Some (JsMap.get k' (JsMap.set k v m)).
Proof.
  intros H. destruct (decide (k' = k)) as [->|Hne].
  - rewrite JsMap_get_set_eq. eauto.
  - by rewrite JsMap_get_set_ne.
Qed.
End JsMap_facts.

(** ** Read receipts *)

(** C3, as the code has it. [mark_as_read] from a registered user adds the
    user's socket id, not the username, to the set that [readReceipts]
    keeps for the message id; the message logs, and so every message's
    [readBy] field, are left as they were; a second identical
    [mark_as_read] changes nothing at all. *)
Theorem mark_as_read_records_socket_id (sid : string) (env env' : Env)
    (s : State) (u : User) (messageId : string) (room : option string) :
  getUserInfo sid s = Some u →
  ∃ s1 acts1,
    handle sid env (mark_as_read messageId room) s = Some (s1, acts1)
    ∧ receipts_of messageId s1 = {[ sid ]} ∪ receipts_of messageId s
    ∧ messages s1 = messages s
    ∧ ∃ acts2,
        handle sid env' (mark_as_read messageId room) s1 = Some (s1, acts2).
Proof.
  intros Hu. simpl. unfold on_mark_as_read. rewrite Hu.
  do 2 eexists. split; [reflexivity|].
  unfold receipts_of. simpl. rewrite lookup_insert_eq. simpl.
  split; [reflexivity|]. split; [reflexivity|].
  unfold getUserInfo. simpl. fold (getUserInfo sid s). rewrite Hu.
  eexists. f_equal. f_equal.
  unfold set_readReceipts. simpl. f_equal.
  rewrite insert_insert_eq. f_equal.
  by rewrite (assoc_L (∪)), (idemp_L (∪)).
Qed.

Lemma mark_as_read_records_socket_id_witness :
  ∃ s1 acts1,
    handle "s1" (Sample.env "3") (mark_as_read "id-2" None) alice_said_hi
      = Some (s1, acts1)
    ∧ receipts_of "id-2" s1 = {[ "s1" ]} ∪ receipts_of "id-2" alice_said_hi
    ∧ messages s1 = messages alice_said_hi
    ∧ ∃ acts2,
        handle "s1" (Sample.env "4") (mark_as_read "id-2" None) s1
          = Some (s1, acts2).
Proof.
  apply (mark_as_read_records_socket_id "s1" (Sample.env "3") (Sample.env "4")
           alice_said_hi alice).
  vm_compute. reflexivity.
Defined.

(** C3, as the specification words it, fails: after Alice (socket ["s1"])
    marks her message ["id-2"] as read, the name ["alice"] is neither in the
    message's [readBy] nor in the receipts kept for ["id-2"]. *)
Lemma mark_as_read_does_not_record_username :
  getUserInfo "s1" alice_said_hi = Some alice
  ∧ (∃ m, find_message "global" "id-2" alice_said_hi = Some m)
  ∧ ∃ s1 acts,
      handle "s1" (Sample.env "3") (mark_as_read "id-2" None) alice_said_hi
        = Some (s1, acts)
      ∧ (∃ m, find_message "global" "id-2" s1 = Some m
              ∧ username alice ∉ default [] (readBy m))
      ∧ username alice ∉ receipts_of "id-2" s1.
Proof.
  split; [vm_compute; reflexivity|].
  split; [eexists; vm_compute; reflexivity|].
  do 2 eexists. split; [vm_compute; reflexivity|]. split.
  - eexists. split; [vm_compute; reflexivity|]. simpl. apply not_elem_of_nil.
  - apply (bool_decide_unpack _). vm_compute. exact I.
Qed.

(** ** Joining twice *)

(** C4, as the code has it. [user_join] has no guard: on a socket that is
    already registered it succeeds like a first join. The socket's entry is
    replaced, where it stands, by a fresh identity (the new name and avatar,
    the default room, status online); the other entries and the other
    registries are kept; and the same five calls are made (join the default
    room, [user_list] to all, [user_joined] to the default room, [room_list]
    and [message_history] to the sender). *)
Theorem duplicate_join_overwrites (sid : string) (env : Env) (name : string)
    (av : option string) (s : State) (old : User) :
  getUserInfo sid s = Some old →
  let fresh := mkUser sid name av (now env) DEFAULT_ROOM "online" in
  ∃ s',
    handle sid env (user_join name av) s
      = Some (s',
          [ SockJoin DEFAULT_ROOM;
            Emit ToAll "user_list" (P_user_list (JsMap.values (users s')));
            Emit (ToRoom DEFAULT_ROOM) "user_joined"
              (P_user_room fresh DEFAULT_ROOM);
            Emit ToSender "room_list" (P_room_list (JsMap.values (rooms s)));
            Emit ToSender "message_history"
              (P_message_history DEFAULT_ROOM
                 (message_history DEFAULT_ROOM s)) ])
    ∧ getUserInfo sid s' = Some fresh
    ∧ (∀ sid', sid' ≠ sid → getUserInfo sid' s' = getUserInfo sid' s)
    ∧ (users s').*1 = (users s).*1
    ∧ rooms s' = rooms s ∧ messages s' = messages s
    ∧ typingUsers s' = typingUsers s ∧ readReceipts s' = readReceipts s.
Proof.
  intros Hold fresh. eexists. split; [reflexivity|]. simpl.
  unfold getUserInfo. simpl. split; [apply JsMap_get_set_eq|].
  split; [intros sid' Hne; by apply JsMap_get_set_ne|].
  split; [|done]. apply JsMap_set_keys_present.
  unfold getUserInfo in Hold. rewrite Hold. eauto.
Qed.

Lemma duplicate_join_overwrites_witness :
  ∃ s',
    handle "s1" (Sample.env "2") (user_join "mallory" (Some "m.png"))
      alice_joined
      = Some (s',
          [ SockJoin "global";
            Emit ToAll "user_list" (P_user_list (JsMap.values (users s')));
            Emit (ToRoom "global") "user_joined"
              (P_user_room
                 (mkUser "s1" "mallory" (Some "m.png") "t-2" "global" "online")
                 "global");
            Emit ToSender "room_list"
              (P_room_list (JsMap.values (rooms alice_joined)));
            Emit ToSender "message_history"
              (P_message_history "global"
                 (message_history "global" alice_joined)) ])
    ∧ getUserInfo "s1" s'
      = Some (mkUser "s1" "mallory" (Some "m.png") "t-2" "global" "online")
    ∧ (∀ sid', sid' ≠ "s1" →
         getUserInfo sid' s' = getUserInfo sid' alice_joined)
    ∧ (users s').*1 = (users alice_joined).*1
    ∧ rooms s' = rooms alice_joined ∧ messages s' = messages alice_joined
    ∧ typingUsers s' = typingUsers alice_joined
    ∧ readReceipts s' = readReceipts alice_joined.
Proof.
  apply (duplicate_join_overwrites "s1" (Sample.env "2") "mallory"
           (Some "m.png") alice_joined alice).
  vm_compute. reflexivity.
Defined.

(** C4, as the specification words it, fails: socket ["s1"] is registered
    as Alice, and a second [user_join] on it is not rejected; it rebinds the
    socket to the new name. *)
Lemma duplicate_join_is_not_rejected :
  getUserInfo "s1" alice_joined = Some alice
  ∧ ¬ join_rejected "s1" (Sample.env "2") "mallory" None alice_joined.
Proof.
  split; [vm_compute; reflexivity|].
  intros Hrej.
  specialize (Hrej _ _ eq_refl). vm_compute in Hrej. discriminate Hrej.
Qed.

(** ** Array facts *)

Section JsArray_facts.
Context {A : Type}.
Implicit Types (a : list A) (n k : nat).

Lemma shift_as_drop a : JsArray.shift a = drop 1 a.
Proof. by destruct a. Qed.

Lemma shift_length a : length (JsArray.shift a) = length a - 1.
Proof. rewrite shift_as_drop. apply length_drop. Qed.

Lemma slice_last_short n a : length a ≤ n → JsArray.slice_last n a = a.
Proof.
  intros Hle. unfold JsArray.slice_last.
  by replace (length a - n) with 0 by lia.
Qed.

Lemma slice_last_length n a :
  length (JsArray.slice_last n a) = Nat.min n (length a).
Proof. unfold JsArray.slice_last. rewrite length_drop. lia. Qed.

Lemma slice_last_of_drop n k a :
  n ≤ length (drop k a) →
  JsArray.slice_last n (drop k a) = JsArray.slice_last n a.
Proof.
  intros Hle. unfold JsArray.slice_last.
  rewrite length_drop in Hle. rewrite length_drop, drop_drop.
  destruct (decide (k ≤ length a)); [f_equal; lia|].
  by rewrite !drop_ge by lia.
Qed.

Lemma drop_snoc k a x : k ≤ length a → drop k a ++ [x] = drop k (a ++ [x]).
Proof. intros Hle. by rewrite drop_app_le. Qed.
End JsArray_facts.

(** ** The bound on a room's log *)

Lemma send_message_registered (sid : string) (env : Env) (msg : string)
    (room : option string) (s : State) (u : User) :
  getUserInfo sid s = Some u →
  let r := room_or_default room in
  let m := text_messageData sid env u msg r in
  let pushed := JsArray.push m (log_of r s) in
  ∃ s' acts,
    handle sid env (send_message msg room) s = Some (s', acts)
    ∧ users s' = users s
    ∧ log_of r s'
      = (if decide (100 < length pushed) then JsArray.shift pushed
         else pushed).
Proof.
  intros Hu r m pushed. simpl. unfold on_send_message. rewrite Hu.
  do 2 eexists. split; [reflexivity|]. split; [reflexivity|].
  unfold log_of. simpl. by rewrite lookup_insert_eq.
Qed.

Lemma file_uploaded_registered (sid : string) (env : Env) (fd : FileData)
    (room : option string) (s : State) (u : User) :
  getUserInfo sid s = Some u →
  let r := room_or_default room in
  ∃ s' acts,
    handle sid env (file_uploaded fd room) s = Some (s', acts)
    ∧ users s' = users s
    ∧ log_of r s' = JsArray.push (file_messageData sid env u fd r) (log_of r s).
Proof.
  intros Hu r. simpl. unfold on_file_uploaded. rewrite Hu.
  do 2 eexists. split; [reflexivity|]. split; [reflexivity|].
  unfold log_of. simpl. by rewrite lookup_insert_eq.
Qed.

(** The text path keeps the bound: a log of at most 100 messages has at most
    100 after [send_message]. *)
Lemma send_message_keeps_bound (sid : string) (env : Env) (msg : string)
    (room : option string) (s s' : State) (acts : list Action) :
  length (log_of (room_or_default room) s) ≤ 100 →
  handle sid env (send_message msg room) s = Some (s', acts) →
  length (log_of (room_or_default room) s') ≤ 100.
Proof.
  intros Hlen Hrun.
  destruct (getUserInfo sid s) as [u|] eqn:Hu.
  - destruct (send_message_registered sid env msg room s u Hu)
      as (s1 & a1 & H1 & _ & Hlog).
    rewrite Hrun in H1. injection H1 as -> ->. rewrite Hlog.
    case_decide as Hbig.
    + rewrite shift_length. unfold JsArray.push. rewrite length_app.
      simpl. lia.
    + lia.
  - simpl in Hrun. unfold on_send_message in Hrun. rewrite Hu in Hrun.
    injection Hrun as <- <-. exact Hlen.
Qed.

(** C1, where the code departs from it. [file_uploaded] pushes without the
    eviction that [send_message] performs: after Alice has uploaded 101
    files the default room's log holds 101 messages, the first upload still
    among them, and a text message sent then evicts one message only,
    leaving 101. *)
Theorem file_uploads_exceed_the_bound :
  getUserInfo "s1" flooded = Some alice
  ∧ length (log_of "global" flooded) = 101
  ∧ m_id <$> head (log_of "global" flooded) = Some "id-u0"
  ∧ ∃ s' acts,
      handle "s1" (Sample.env "z") (send_message "hi" None) flooded
        = Some (s', acts)
      ∧ length (log_of "global" s') = 101.
Proof.
  split; [vm_compute; reflexivity|].
  split; [vm_compute; reflexivity|].
  split; [vm_compute; reflexivity|].
  do 2 eexists. split; [reflexivity|]. vm_compute. reflexivity.
Qed.

(** ** The history sent to a joining client *)

Lemma appended_same_users (s s' : State) (tr : list Input) :
  users s' = users s → appended s' tr = appended s tr.
Proof. intros Hu. unfold appended, getUserInfo. by rewrite Hu. Qed.

Lemma appended_cons (s : State) (i : Input) (tr : list Input) (m : Message) :
  (getUserInfo (in_sid i) s ≫= λ u, appended_message u i) = Some m →
  appended s (i :: tr) = m :: appended s tr.
Proof. intros Hm. unfold appended. simpl. by rewrite Hm. Qed.

(** One append: the message is pushed on the room's log, and at most the
    oldest message is evicted, only from a log that then keeps 100 or more. *)
Lemma append_step (r : string) (s : State) (i : Input) :
  append_by_registered r s i →
  ∃ s' m,
    step s i = Some s'
    ∧ users s' = users s
    ∧ (getUserInfo (in_sid i) s ≫= λ u, appended_message u i) = Some m
    ∧ (log_of r s' = log_of r s ++ [m]
       ∨ (100 ≤ length (log_of r s')
          ∧ log_of r s' = drop 1 (log_of r s ++ [m]))).
Proof.
  intros [Happ [u Hu]]. destruct i as [sid env ev]. simpl in *.
  unfold step. simpl. rewrite Hu. simpl.
  destruct ev; simpl in Happ; try discriminate;
    apply bool_decide_eq_true in Happ; subst r.
  - destruct (send_message_registered sid env msg room s u Hu)
      as (s' & acts & -> & Hus & Hlog).
    exists s'. eexists. split; [reflexivity|]. split; [done|].
    split; [reflexivity|]. rewrite Hlog. unfold appended_message. simpl.
    case_decide as Hbig.
    + right. rewrite shift_length, shift_as_drop. split; [lia|done].
    + by left.
  - destruct (file_uploaded_registered sid env fd room s u Hu)
      as (s' & acts & -> & Hus & Hlog).
    exists s'. eexists. split; [reflexivity|]. split; [done|].
    split; [reflexivity|]. left. exact Hlog.
Qed.

(** A run of appends to [r]: the log is what is left of the earlier
    messages [pre] followed by the appended ones after dropping some of the
    oldest, and something is dropped only if 100 or more are kept. *)
Lemma run_appends_log (r : string) (tr : list Input) :
  ∀ (s : State) (pre : list Message) (k : nat),
    Forall (append_by_registered r s) tr →
    log_of r s = drop k pre →
    k = 0 ∨ 100 ≤ length (log_of r s) →
    ∃ s' k',
      run s tr = Some s'
      ∧ users s' = users s
      ∧ log_of r s' = drop k' (pre ++ appended s tr)
      ∧ (k' = 0 ∨ 100 ≤ length (log_of r s')).
Proof.
  induction tr as [|i tr IH]; intros s pre k Hall Hlog Hk.
  - exists s, k. simpl. rewrite app_nil_r. done.
  - apply Forall_cons in Hall as [Hi Hall].
    destruct (append_step r s i Hi) as (s1 & m & Hstep & Hus & Hm & Hlog1).
    assert (k ≤ length pre) as Hkle.
    { destruct Hk as [->|Hbig]; [lia|].
      rewrite Hlog, length_drop in Hbig. lia. }
    assert (log_of r s ++ [m] = drop k (pre ++ [m])) as Hpush.
    { rewrite Hlog. by apply drop_snoc. }
    assert (Forall (append_by_registered r s1) tr) as Hall1.
    { eapply Forall_impl; [exact Hall|]. intros j [? ?]. split; [done|].
      unfold getUserInfo in *. by rewrite Hus. }
    assert (∃ k1, log_of r s1 = drop k1 (pre ++ [m])
                  ∧ (k1 = 0 ∨ 100 ≤ length (log_of r s1)))
      as (k1 & Hlog1' & Hk1).
    { destruct Hlog1 as [Hl|[Hbig Hl]].
      - exists k. split; [by rewrite Hl|]. destruct Hk as [->|Hold]; [by left|].
        right. rewrite Hl, length_app. simpl. lia.
      - exists (k + 1). split; [|by right].
        by rewrite Hl, Hpush, drop_drop. }
    destruct (IH s1 (pre ++ [m]) k1 Hall1 Hlog1' Hk1)
      as (s' & k' & Hrun & Hus' & Hlog' & Hk').
    exists s', k'. cbn [run]. rewrite Hstep. split; [done|].
    split; [congruence|]. split; [|done].
    rewrite Hlog', (appended_same_users s s1 tr Hus).
    by rewrite (appended_cons s i tr m Hm), <- app_assoc.
Qed.

(** C6. Starting from a room without messages, after [N] appends by
    registered users ([send_message] or [file_uploaded], in any mix) the
    history that [join_room] sends to the joiner, and that [user_join] sends
    for the default room, is the last 50 of the appended messages in append
    order: all [N] of them when [N ≤ 50], exactly the last 50 when [N > 50],
    and nothing when [N = 0]. *)
Theorem history_is_the_last_50_appended (r : string) (s : State)
    (tr : list Input) :
  log_of r s = [] →
  Forall (append_by_registered r s) tr →
  ∃ s',
    run s tr = Some s'
    ∧ length (appended s tr) = length tr
    ∧ message_history r s' = JsArray.slice_last 50 (appended s tr)
    ∧ (length tr ≤ 50 → message_history r s' = appended s tr)
    ∧ (50 < length tr →
         message_history r s' = drop (length tr - 50) (appended s tr)
         ∧ length (message_history r s') = 50)
    ∧ (length tr = 0 → message_history r s' = [])
    ∧ (∀ sid env u, getUserInfo sid s' = Some u →
         ∃ s'' acts,
           handle sid env (join_room r) s' = Some (s'', acts)
           ∧ Emit ToSender "message_history"
               (P_message_history r (message_history r s')) ∈ acts)
    ∧ (r = DEFAULT_ROOM → ∀ sid env name av,
         ∃ s'' acts,
           handle sid env (user_join name av) s' = Some (s'', acts)
           ∧ Emit ToSender "message_history"
               (P_message_history r (message_history r s')) ∈ acts).
Proof.
  intros Hempty Hall.
  destruct (run_appends_log r tr s [] 0 Hall Hempty (or_introl eq_refl))
    as (s' & k & Hrun & Hus & Hlog & Hk).
  simpl in Hlog.
  assert (length (appended s tr) = length tr) as Hlen.
  { clear -Hall. induction Hall as [|i tr Hi _ IH]; [done|].
    destruct (append_step r s i Hi) as (_ & m & _ & _ & Hm & _).
    rewrite (appended_cons s i tr m Hm). simpl. by rewrite IH. }
  assert (message_history r s' = JsArray.slice_last 50 (appended s tr))
    as Hhist.
  { unfold message_history. fold (log_of r s'). rewrite Hlog.
    destruct Hk as [->|Hbig]; [done|].
    apply slice_last_of_drop. rewrite <- Hlog. lia. }
  exists s'. split; [done|]. split; [done|]. split; [done|].
  rewrite Hhist. split; [|split; [|split; [|split]]].
  - intros Hle. apply slice_last_short. lia.
  - intros Hgt. split.
    + unfold JsArray.slice_last. by rewrite Hlen.
    + rewrite slice_last_length. lia.
  - intros Hz. destruct (appended s tr); [done|simpl in Hlen; lia].
  - intros sid env u Hu. simpl. unfold on_join_room. rewrite Hu.
    do 2 eexists. split; [reflexivity|].
    rewrite <- Hhist. apply elem_of_app. right.
    apply elem_of_cons. right. apply elem_of_cons. by left.
  - intros -> sid env name av. simpl. unfold on_user_join.
    do 2 eexists. split; [reflexivity|].
    rewrite <- Hhist. do 4 (apply elem_of_cons; right).
    apply elem_of_cons. by left.
Qed.

Lemma history_is_the_last_50_appended_witness :
  ∃ s',
    run alice_joined three_appends = Some s'
    ∧ length (appended alice_joined three_appends) = length three_appends
    ∧ message_history "global" s'
      = JsArray.slice_last 50 (appended alice_joined three_appends)
    ∧ (length three_appends ≤ 50 →
         message_history "global" s' = appended alice_joined three_appends)
    ∧ (50 < length three_appends →
         message_history "global" s'
         = drop (length three_appends - 50)
             (appended alice_joined three_appends)
         ∧ length (message_history "global" s') = 50)
    ∧ (length three_appends = 0 → message_history "global" s' = [])
    ∧ (∀ sid env u, getUserInfo sid s' = Some u →
         ∃ s'' acts,
           handle sid env (join_room "global") s' = Some (s'', acts)
           ∧ Emit ToSender "message_history"
               (P_message_history "global" (message_history "global" s'))
             ∈ acts)
    ∧ ("global" = DEFAULT_ROOM → ∀ sid env name av,
         ∃ s'' acts,
           handle sid env (user_join name av) s' = Some (s'', acts)
           ∧ Emit ToSender "message_history"
               (P_message_history "global" (message_history "global" s'))
             ∈ acts).
Proof.
  apply (history_is_the_last_50_appended "global" alice_joined three_appends).
  - vm_compute. reflexivity.
  - repeat apply Forall_cons_2; try apply Forall_nil_2;
      (split; [vm_compute; reflexivity|eexists; vm_compute; reflexivity]).
Defined.

(** After 60 uploads the log has all 60 messages and the history the last
    50 of them, from the one numbered 10 to the one numbered 59. *)
Example history_after_60_uploads :
  let s := Sample.after
             (Sample.inp "s1" "1" (user_join "alice" None) :: uploads 60) in
  length (log_of "global" s) = 60
  ∧ m_id <$> message_history "global" s
    = (λ k, "id-u" +:+ pretty k) <$> seq 10 50.
Proof. split; vm_compute; reflexivity. Qed.

(** ** One handler at a time *)

Lemma elem_of_log_of (r : string) (s : State) (m : Message) :
  m ∈ log_of r s → ∃ log, messages s !! r = Some log ∧ m ∈ log.
Proof.
  unfold log_of. destruct (messages s !! r) as [log|]; simpl.
  - eauto.
  - by intros ?%elem_of_nil.
Qed.

Lemma elem_of_shift {A : Type} (x : A) (a : list A) :
  x ∈ JsArray.shift a → x ∈ a.
Proof. destruct a; simpl; [done|]. by right. Qed.

Lemma elem_of_list_insert_inv {A : Type} (x y : A) (i : nat) (a : list A) :
  x ∈ <[i:=y]> a → x = y ∨ x ∈ a.
Proof.
  intros [j Hj]%list_elem_of_lookup.
  apply list_lookup_insert_Some in Hj as [(_ & -> & _)|[_ Hj]]; [by left|].
  right. by eapply list_elem_of_lookup_2.
Qed.

Lemma handle_message_origin (sid : string) (env : Env) (ev : Event)
    (s s' : State) (acts : list Action) (r : string) (log' : list Message)
    (m' : Message) :
  handle sid env ev s = Some (s', acts) →
  messages s' !! r = Some log' → m' ∈ log' →
  message_origin sid env ev s m'.
Proof.
  intros Hrun Hlog' Hin.
  destruct ev; simpl in Hrun.
  - (* user_join *)
    injection Hrun as <- <-. by eapply origin_kept.
  - (* send_message *)
    unfold on_send_message in Hrun.
    destruct (getUserInfo sid s) as [u|] eqn:Hu; injection Hrun as <- <-;
      [|by eapply origin_kept].
    simpl in Hlog'.
    destruct (decide (r = room_or_default room)) as [->|Hne].
    + rewrite lookup_insert_eq in Hlog'. injection Hlog' as <-.
      assert (m' ∈ JsArray.push
                (text_messageData sid env u msg (room_or_default room))
                (log_of (room_or_default room) s)) as Hpushed.
      { case_decide; [by apply elem_of_shift|done]. }
      apply elem_of_app in Hpushed as [Hold|Hnew%list_elem_of_singleton].
      * apply elem_of_log_of in Hold as (log & ? & ?). by eapply origin_kept.
      * by eapply origin_text.
    + rewrite lookup_insert_ne in Hlog' by done. by eapply origin_kept.
  - (* typing *)
    unfold on_typing in Hrun.
    destruct (getUserInfo sid s); injection Hrun as <- <-;
      by eapply origin_kept.
  - (* private_message *)
    unfold on_private_message in Hrun.
    destruct (getUserInfo sid s); injection Hrun as <- <-;
      by eapply origin_kept.
  - (* add_reaction *)
    unfold on_add_reaction in Hrun.
    destruct (getUserInfo sid s) as [u|] eqn:Hu;
      [|injection Hrun as <- <-; by eapply origin_kept].
    destruct (messages s !! room_or_default room) as [log|] eqn:Hlog;
      [|injection Hrun as <- <-; by eapply origin_kept].
    destruct (list_find _ log) as [[i m]|] eqn:Hfind;
      [|injection Hrun as <- <-; by eapply origin_kept].
    destruct (inherited_key reaction); [discriminate|].
    injection Hrun as <- <-. simpl in Hlog'.
    apply list_find_Some in Hfind as (Hi%list_elem_of_lookup_2 & _ & _).
    destruct (decide (r = room_or_default room)) as [->|Hne].
    + rewrite lookup_insert_eq in Hlog'. injection Hlog' as <-.
      apply elem_of_list_insert_inv in Hin as [->|Hold].
      * by eapply origin_reacted.
      * by eapply origin_kept.
    + rewrite lookup_insert_ne in Hlog' by done. by eapply origin_kept.
  - (* mark_as_read *)
    unfold on_mark_as_read in Hrun.
    destruct (getUserInfo sid s); injection Hrun as <- <-;
      by eapply origin_kept.
  - (* join_room *)
    unfold on_join_room in Hrun.
    destruct (getUserInfo sid s); injection Hrun as <- <-;
      by eapply origin_kept.
  - (* create_room *)
    unfold on_create_room in Hrun.
    destruct (getUserInfo sid s); injection Hrun as <- <-;
      [|by eapply origin_kept].
    simpl in Hlog'. destruct (decide (r = uuid env)) as [->|Hne].
    + rewrite lookup_insert_eq in Hlog'. injection Hlog' as <-.
      by apply elem_of_nil in Hin.
    + rewrite lookup_insert_ne in Hlog' by done. by eapply origin_kept.
  - (* file_uploaded *)
    unfold on_file_uploaded in Hrun.
    destruct (getUserInfo sid s) as [u|] eqn:Hu; injection Hrun as <- <-;
      [|by eapply origin_kept].
    simpl in Hlog'.
    destruct (decide (r = room_or_default room)) as [->|Hne].
    + rewrite lookup_insert_eq in Hlog'. injection Hlog' as <-.
      apply elem_of_app in Hin as [Hold|Hnew%list_elem_of_singleton].
      * apply elem_of_log_of in Hold as (log & ? & ?). by eapply origin_kept.
      * by eapply origin_file.
    + rewrite lookup_insert_ne in Hlog' by done. by eapply origin_kept.
  - (* disconnect *)
    unfold on_disconnect in Hrun.
    destruct (getUserInfo sid s); injection Hrun as <- <-;
      by eapply origin_kept.
  - (* update_status *)
    unfold on_update_status in Hrun.
    destruct (getUserInfo sid s); injection Hrun as <- <-;
      by eapply origin_kept.
Qed.

(** A property of the initial registries that every handler preserves holds
    after every run. *)
Lemma run_invariant (P : State → Prop) :
  (∀ sid env ev s s' acts,
     P s → handle sid env ev s = Some (s', acts) → P s') →
  ∀ tr s s', P s → run s tr = Some s' → P s'.
Proof.
  intros Hstep. induction tr as [|i tr IH]; intros s s' HP Hrun; simpl in Hrun.
  - by injection Hrun as <-.
  - unfold step in Hrun.
    destruct (handle (in_sid i) (in_env i) (in_event i) s) as [[s1 acts]|]
      eqn:Hh; simpl in Hrun; [|discriminate].
    eapply IH; [|exact Hrun]. by eapply Hstep.
Qed.

(** ** Rooms referred to by users and messages *)

(** Rooms are never removed. *)
Lemma handle_rooms_mono (sid : string) (env : Env) (ev : Event)
    (s s' : State) (acts : list Action) (r : string) :
  handle sid env ev s = Some (s', acts) →
  is_Some (JsMap.get r (rooms s)) → is_Some (JsMap.get r (rooms s')).
Proof.
  intros Hrun Hr.
  destruct ev; simpl in Hrun;
    [ unfold on_user_join in Hrun | unfold on_send_message in Hrun
    | unfold on_typing in Hrun | unfold on_private_message in Hrun
    | unfold on_add_reaction in Hrun | unfold on_mark_as_read in Hrun
    | unfold on_join_room in Hrun | unfold on_create_room in Hrun
    | unfold on_file_uploaded in Hrun | unfold on_disconnect in Hrun
    | unfold on_update_status in Hrun ];
    try (destruct (getUserInfo sid s) as [u|]);
    try (destruct (messages s !! room_or_default room));
    try (destruct (list_find _ _) as [[? ?]|]);
    try (destruct (inherited_key reaction));
    try discriminate; injection Hrun as <- <-; simpl; try done.
  by apply JsMap_get_is_Some_set.
Qed.

(** The entries of [users] after one handler: an entry that was there, the
    identity made by [user_join], or the sender's entry with the room or the
    status changed. *)
Lemma handle_user_origin (sid : string) (env : Env) (ev : Event)
    (s s' : State) (acts : list Action) (k : string) (u' : User) :
  handle sid env ev s = Some (s', acts) →
  (k, u') ∈ users s' →
  (k, u') ∈ users s
  ∨ currentRoom u' = DEFAULT_ROOM ∧ is_user_join ev = true
  ∨ ∃ u, (sid, u) ∈ users s
         ∧ (currentRoom u' = currentRoom u
            ∨ (∃ roomId, ev = join_room roomId ∧ currentRoom u' = roomId)
            ∨ (∃ name p, ev = create_room name p
                         ∧ currentRoom u' = uuid env)).
Proof.
  intros Hrun Hin.
  destruct ev; simpl in Hrun.
  - (* user_join *)
    injection Hrun as <- <-. simpl in Hin.
    apply JsMap_set_elem_of in Hin as [[= -> ->]|?]; [|by left].
    right. by left.
  - unfold on_send_message in Hrun.
    destruct (getUserInfo sid s); injection Hrun as <- <-; by left.
  - unfold on_typing in Hrun.
    destruct (getUserInfo sid s); injection Hrun as <- <-; by left.
  - unfold on_private_message in Hrun.
    destruct (getUserInfo sid s); injection Hrun as <- <-; by left.
  - unfold on_add_reaction in Hrun.
    destruct (getUserInfo sid s); [|injection Hrun as <- <-; by left].
    destruct (messages s !! room_or_default room);
      [|injection Hrun as <- <-; by left].
    destruct (list_find _ _) as [[? ?]|]; [|injection Hrun as <- <-; by left].
    destruct (inherited_key reaction); [discriminate|].
    injection Hrun as <- <-. by left.
  - unfold on_mark_as_read in Hrun.
    destruct (getUserInfo sid s); injection Hrun as <- <-; by left.
  - (* join_room *)
    unfold on_join_room in Hrun.
    destruct (getUserInfo sid s) as [u|] eqn:Hu; injection Hrun as <- <-;
      [|by left].
    apply JsMap_get_elem_of in Hu. simpl in Hin.
    apply JsMap_set_elem_of in Hin as [[= -> ->]|?]; [|by left].
    right. right. exists u. split; [done|]. right. left. by exists roomId.
  - (* create_room *)
    unfold on_create_room in Hrun.
    destruct (getUserInfo sid s) as [u|] eqn:Hu; injection Hrun as <- <-;
      [|by left].
    apply JsMap_get_elem_of in Hu. simpl in Hin.
    apply JsMap_set_elem_of in Hin as [[= -> ->]|?]; [|by left].
    right. right. exists u. split; [done|]. right. right.
    by exists name, private.
  - unfold on_file_uploaded in Hrun.
    destruct (getUserInfo sid s); injection Hrun as <- <-; by left.
  - (* disconnect *)
    unfold on_disconnect in Hrun.
    destruct (getUserInfo sid s); injection Hrun as <- <-; [|by left].
    left. simpl in Hin. by eapply JsMap_delete_elem_of.
  - (* update_status *)
    unfold on_update_status in Hrun.
    destruct (getUserInfo sid s) as [u|] eqn:Hu; injection Hrun as <- <-;
      [|by left].
    apply JsMap_get_elem_of in Hu. simpl in Hin.
    apply JsMap_set_elem_of in Hin as [[= -> ->]|?]; [|by left].
    right. right. exists u. split; [done|]. by left.
Qed.

Lemma message_origin_room (sid : string) (env : Env) (ev : Event) (s : State)
    (m' : Message) :
  message_origin sid env ev s m' →
  (∃ r log m, messages s !! r = Some log ∧ m ∈ log ∧ m_room m' = m_room m)
  ∨ (∃ msg room, ev = send_message msg room
                 ∧ m_room m' = room_or_default room)
  ∨ (∃ fd room, ev = file_uploaded fd room
                ∧ m_room m' = room_or_default room).
Proof.
  intros [r log Hlog Hin|u msg room -> _ ->|u fd room -> _ ->
         |u mid k room log m -> _ Hlog Hin ->].
  - left. by exists r, log, m'.
  - right. left. by exists msg, room.
  - right. right. by exists fd, room.
  - left. by exists (room_or_default room), log, m.
Qed.

Lemma created_room_exists (sid : string) (env : Env) (name : string)
    (p : option bool) (s s' : State) (acts : list Action) (u : User) :
  getUserInfo sid s = Some u →
  handle sid env (create_room name p) s = Some (s', acts) →
  is_Some (JsMap.get (uuid env) (rooms s')).
Proof.
  intros Hu Hrun. simpl in Hrun. unfold on_create_room in Hrun.
  rewrite Hu in Hrun. injection Hrun as <- <-. simpl.
  rewrite JsMap_get_set_eq. eauto.
Qed.

Lemma handle_preserves_rooms_inv (sid : string) (env : Env) (ev : Event)
    (s s' : State) (acts : list Action) :
  rooms_inv s →
  names_existing_room s ev = true →
  handle sid env ev s = Some (s', acts) →
  rooms_inv s'.
Proof.
  intros (Hdef & Husers & Hmsgs) Hguard Hrun.
  pose proof (handle_rooms_mono sid env ev s s' acts) as Hmono.
  split; [by apply Hmono|]. split.
  - intros k u' Hin.
    destruct (handle_user_origin sid env ev s s' acts k u' Hrun Hin)
      as [Hold|[[-> _]|(u & Hu & Hcase)]].
    + apply Hmono; [done|]. by eapply Husers.
    + by apply Hmono.
    + destruct Hcase as [->|[(roomId & -> & ->)|(name & p & -> & ->)]].
      * apply Hmono; [done|]. by eapply Husers.
      * apply Hmono; [done|]. simpl in Hguard.
        by apply bool_decide_eq_true in Hguard.
      * destruct (getUserInfo sid s) as [u0|] eqn:Hu0.
        -- by eapply created_room_exists.
        -- apply JsMap_elem_of_get_is_Some in Hu as [? Hu].
           unfold getUserInfo in Hu0. congruence.
  - intros r log' m' Hlog' Hin.
    pose proof (handle_message_origin sid env ev s s' acts r log' m'
                  Hrun Hlog' Hin) as Horigin.
    apply message_origin_room in Horigin
      as [(r0 & log & m & Hlog & Hm & ->)|[(msg & room & -> & ->)
         |(fd & room & -> & ->)]].
    + apply Hmono; [done|]. by eapply Hmsgs.
    + apply Hmono; [done|]. simpl in Hguard.
      by apply bool_decide_eq_true in Hguard.
    + apply Hmono; [done|]. simpl in Hguard.
      by apply bool_decide_eq_true in Hguard.
Qed.

Lemma init_rooms_inv (t0 : string) : rooms_inv (init t0).
Proof.
  split; [by eexists|]. split.
  - intros k u Hin. by apply elem_of_nil in Hin.
  - intros r log m Hlog Hin. simpl in Hlog.
    apply lookup_singleton_Some in Hlog as [_ <-]. by apply elem_of_nil in Hin.
Qed.

Lemma rooms_inv_refs_exist (s : State) : rooms_inv s → refs_exist s.
Proof.
  intros (_ & Husers & Hmsgs). split; [|done].
  intros sid u Hu. eapply Husers. by apply JsMap_get_elem_of.
Qed.

Lemma guarded_run_rooms_inv (tr : list Input) :
  ∀ s s', rooms_inv s → rooms_named_exist s tr = true →
          run s tr = Some s' → rooms_inv s'.
Proof.
  induction tr as [|i tr IH]; intros s s' Hinv Hguard Hrun; simpl in *.
  - by injection Hrun as <-.
  - apply andb_true_iff in Hguard as [Hi Hrest].
    unfold step in *.
    destruct (handle (in_sid i) (in_env i) (in_event i) s) as [[s1 acts]|]
      eqn:Hh; simpl in *; [|discriminate].
    eapply IH; [|exact Hrest|exact Hrun].
    by eapply handle_preserves_rooms_inv.
Qed.

(** C2, as the code has it. No handler checks that a room exists, so the
    invariant holds along the runs in which every [join_room],
    [send_message] and [file_uploaded] names a room that [rooms] has when
    the event is handled: then every registered user's [currentRoom] and
    every stored message's [room] is the key of a room in [rooms]. *)
Theorem refs_exist_when_named_rooms_exist (t0 : string) (tr : list Input)
    (s : State) :
  run (init t0) tr = Some s →
  rooms_named_exist (init t0) tr = true →
  refs_exist s.
Proof.
  intros Hrun Hguard. apply rooms_inv_refs_exist.
  eapply guarded_run_rooms_inv; [apply init_rooms_inv|done..].
Qed.

Lemma refs_exist_when_named_rooms_exist_witness :
  refs_exist (Sample.after tidy_trace).
Proof.
  apply (refs_exist_when_named_rooms_exist "t-0" tidy_trace).
  - vm_compute. reflexivity.
  - vm_compute. reflexivity.
Defined.

(** C2, as the specification words it, fails: in a state reached from the
    start, Alice's [currentRoom] is ["nowhere"] and the room of a stored
    message is ["elsewhere"]; [rooms] has neither. *)
Lemma refs_to_missing_rooms :
  run Sample.start stray_trace = Some stray
  ∧ (∃ u, getUserInfo "s1" stray = Some u
          ∧ JsMap.get (currentRoom u) (rooms stray) = None)
  ∧ (∃ m, messages stray !! "elsewhere" = Some [m]
          ∧ JsMap.get (m_room m) (rooms stray) = None)
  ∧ ¬ refs_exist stray.
Proof.
  split; [vm_compute; reflexivity|].
  split; [eexists; split; vm_compute; reflexivity|].
  split; [eexists; split; vm_compute; reflexivity|].
  intros [Husers _].
  destruct (Husers "s1" (mkUser "s1" "alice" None "t-1" "nowhere" "online"))
    as [room Hroom]; [vm_compute; reflexivity|].
  vm_compute in Hroom. discriminate.
Qed.

(** ** Reactions *)

Lemma indexOf_None (x : string) (l : list string) :
  JsArray.indexOf x l = None ↔ x ∉ l.
Proof.
  unfold JsArray.indexOf. rewrite fmap_None, list_find_None, Forall_forall.
  split.
  - intros H Hin. by apply (H x).
  - intros H y Hin ->. done.
Qed.

Lemma indexOf_Some (x : string) (l : list string) (i : nat) :
  JsArray.indexOf x l = Some i → l !! i = Some x.
Proof.
  unfold JsArray.indexOf. intros ([j y] & Hfind & ->)%fmap_Some.
  apply list_find_Some in Hfind as (Hj & -> & _). done.
Qed.

(** On an array without repetition, [splice] at the index of a name removes
    the name and nothing else. *)
Lemma splice1_elem_of (x y : string) (l : list string) (i : nat) :
  NoDup l → l !! i = Some x →
  y ∈ JsArray.splice1 i l ↔ y ≠ x ∧ y ∈ l.
Proof.
  intros Hnd Hi. unfold JsArray.splice1. rewrite delete_take_drop.
  rewrite <- (take_drop_middle l i x Hi) in Hnd.
  apply NoDup_app in Hnd as (_ & Hleft & [Hright _]%NoDup_cons).
  rewrite <- (take_drop_middle l i x Hi) at 3.
  rewrite !elem_of_app, elem_of_cons. split.
  - intros [Hin|Hin].
    + split; [|by left]. intros ->. apply (Hleft x Hin). by left.
    + split; [|by right; right]. by intros ->.
  - intros [Hne [Hin|[->|Hin]]]; [by left|done|by right].
Qed.

Lemma toggle_elem_of (name x : string) (l : list string) :
  NoDup l →
  x ∈ toggle name l ↔ (x = name ∧ name ∉ l) ∨ (x ≠ name ∧ x ∈ l).
Proof.
  intros Hnd. unfold toggle.
  destruct (JsArray.indexOf name l) as [i|] eqn:Hidx.
  - apply indexOf_Some in Hidx.
    rewrite (splice1_elem_of name x l i Hnd Hidx).
    apply list_elem_of_lookup_2 in Hidx. split.
    + intros [? ?]. by right.
    + intros [[_ Hno]|?]; [done|done].
  - apply indexOf_None in Hidx. unfold JsArray.push.
    rewrite elem_of_app, list_elem_of_singleton. split.
    + intros [Hin| ->]; [|by left]. right. split; [|done]. by intros ->.
    + intros [[-> _]|[_ Hin]]; [by right|by left].
Qed.

Lemma toggle_NoDup (name : string) (l : list string) :
  NoDup l → NoDup (toggle name l).
Proof.
  intros Hnd. unfold toggle.
  destruct (JsArray.indexOf name l) as [i|] eqn:Hidx.
  - eapply sublist_NoDup; [exact Hnd|]. apply sublist_delete.
  - apply indexOf_None in Hidx. unfold JsArray.push.
    apply NoDup_app. split; [done|]. split; [|apply NoDup_singleton].
    intros y Hy ->%list_elem_of_singleton. done.
Qed.

(** Toggling twice gives back the same set of names. *)
Lemma toggle_twice_elem_of (name x : string) (l : list string) :
  NoDup l → x ∈ toggle name (toggle name l) ↔ x ∈ l.
Proof.
  intros Hnd.
  rewrite (toggle_elem_of name x _ (toggle_NoDup name l Hnd)).
  rewrite !(toggle_elem_of name _ l Hnd).
  destruct (decide (x = name)) as [->|Hne];
    destruct (decide (name ∈ l)); intuition congruence.
Qed.

(** What [add_reaction] does once the sender, the log and the message are
    found and the reaction is a key of its own. *)
Lemma add_reaction_found (sid : string) (env : Env) (s : State) (u : User)
    (messageId k : string) (room : option string) (log : list Message)
    (i : nat) (m : Message) :
  getUserInfo sid s = Some u →
  messages s !! room_or_default room = Some log →
  list_find (λ m, m_id m = messageId) log = Some (i, m) →
  inherited_key k = false →
  let m' :=
    with_reactions
      (<[k := toggle (username u) (default [] (reactions m !! k))]>
         (reactions m)) m in
  handle sid env (add_reaction messageId k room) s
  = Some (set_messages (insert (room_or_default room) (<[i := m']> log)) s,
          [ Emit (ToRoom (room_or_default room)) "message_updated"
              (P_message m') ]).
Proof.
  intros Hu Hlog Hfind Hown m'. simpl. unfold on_add_reaction.
  by rewrite Hu, Hlog, Hfind, Hown.
Qed.

(** Reading [reactions[k]] for an inherited name makes the handler throw. *)
Lemma add_reaction_inherited_key_throws (sid : string) (env : Env)
    (s : State) (u : User) (messageId k : string) (room : option string)
    (m : Message) :
  getUserInfo sid s = Some u →
  find_message (room_or_default room) messageId s = Some m →
  inherited_key k = true →
  handle sid env (add_reaction messageId k room) s = None.
Proof.
  intros Hu Hfind Hk. simpl. unfold on_add_reaction. rewrite Hu.
  unfold find_message, log_of in Hfind.
  destruct (messages s !! room_or_default room) as [log|]; simpl in Hfind;
    [|discriminate].
  destruct (list_find _ log) as [[i m0]|]; [|discriminate].
  by rewrite Hk.
Qed.

Lemma find_after_rewrite (messageId : string) (log : list Message) (i : nat)
    (m m' : Message) :
  list_find (λ m, m_id m = messageId) log = Some (i, m) →
  m_id m' = messageId →
  list_find (λ m, m_id m = messageId) (<[i := m']> log) = Some (i, m').
Proof.
  intros (Hi & _ & Hleast)%list_find_Some Hid.
  apply list_find_insert_Some. right. left.
  split; [done|]. split; [done|].
  split; [by eapply lookup_lt_Some|]. split; [done|]. exact Hleast.
Qed.

Lemma init_reactors_distinct (t0 : string) : reactors_distinct (init t0).
Proof.
  intros r log m k l Hlog Hin. simpl in Hlog.
  apply lookup_singleton_Some in Hlog as [_ <-]. by apply elem_of_nil in Hin.
Qed.

Lemma handle_preserves_reactors_distinct (sid : string) (env : Env)
    (ev : Event) (s s' : State) (acts : list Action) :
  reactors_distinct s →
  handle sid env ev s = Some (s', acts) →
  reactors_distinct s'.
Proof.
  intros Hinv Hrun r log' m' k l Hlog' Hin Hk.
  destruct (handle_message_origin sid env ev s s' acts r log' m'
              Hrun Hlog' Hin)
    as [r0 log Hlog Hm|u msg room _ _ ->|u fd room _ _ ->
       |u mid k0 room log m _ _ Hlog Hm ->].
  - by eapply Hinv.
  - simpl in Hk. by rewrite lookup_empty in Hk.
  - simpl in Hk. by rewrite lookup_empty in Hk.
  - simpl in Hk. destruct (decide (k = k0)) as [->|Hne].
    + rewrite lookup_insert_eq in Hk. injection Hk as <-.
      apply toggle_NoDup.
      destruct (reactions m !! k0) as [l0|] eqn:Hl0; simpl.
      * by eapply Hinv.
      * apply NoDup_nil_2.
    + rewrite lookup_insert_ne in Hk by done. by eapply Hinv.
Qed.

Lemma reachable_reactors_distinct (s : State) :
  reachable s → reactors_distinct s.
Proof.
  intros (t0 & tr & Hrun).
  eapply (run_invariant reactors_distinct); [|apply init_reactors_distinct|done].
  intros sid env ev s0 s1 acts. apply handle_preserves_reactors_distinct.
Qed.

(** The toggle is an involution wherever the handler runs to its end. In a
    reachable state, for a registered user, a message found in the room's
    log and a reaction that is a key of its own, [add_reaction] toggles the
    user's name in the reactor set of that reaction (in afterwards exactly
    if out before, the other names untouched), and a second identical
    [add_reaction] brings the reactor set back to what it was before the
    first. *)
Lemma reaction_toggle_is_an_involution (sid : string) (env1 env2 : Env)
    (s : State) (u : User) (messageId k : string) (room : option string) :
  reachable s →
  getUserInfo sid s = Some u →
  is_Some (find_message (room_or_default room) messageId s) →
  inherited_key k = false →
  let r := room_or_default room in
  ∃ s1 acts1 s2 acts2,
    handle sid env1 (add_reaction messageId k room) s = Some (s1, acts1)
    ∧ handle sid env2 (add_reaction messageId k room) s1 = Some (s2, acts2)
    ∧ (username u ∈ reactors_of r messageId k s1
       ↔ username u ∉ reactors_of r messageId k s)
    ∧ (∀ x, x ≠ username u →
         x ∈ reactors_of r messageId k s1 ↔ x ∈ reactors_of r messageId k s)
    ∧ (∀ x, x ∈ reactors_of r messageId k s2
            ↔ x ∈ reactors_of r messageId k s)
    ∧ NoDup (reactors_of r messageId k s)
    ∧ NoDup (reactors_of r messageId k s2).
Proof.
  intros Hreach Hu [m Hfind] Hown r.
  apply reachable_reactors_distinct in Hreach.
  unfold find_message, log_of in Hfind. fold r in Hfind.
  destruct (messages s !! r) as [log|] eqn:Hlog; simpl in Hfind;
    [|discriminate].
  destruct (list_find _ log) as [[i m0]|] eqn:Hlf; simpl in Hfind;
    [|discriminate].
  injection Hfind as ->.
  set (l := default [] (reactions m !! k)).
  set (m1 := with_reactions (<[k := toggle (username u) l]> (reactions m)) m).
  set (s1 := set_messages (insert r (<[i := m1]> log)) s).
  assert (NoDup l) as Hnd.
  { unfold l. destruct (reactions m !! k) as [l0|] eqn:Hl0; simpl.
    - eapply (Hreach r log m k l0); [done| |done].
      apply list_find_Some in Hlf as (Hi & _). by eapply list_elem_of_lookup_2.
    - apply NoDup_nil_2. }
  assert (list_find (λ m, m_id m = messageId) (<[i := m1]> log)
          = Some (i, m1)) as Hlf1.
  { apply (find_after_rewrite messageId log i m m1 Hlf).
    apply list_find_Some in Hlf as (_ & Hid & _). exact Hid. }
  set (m2 := with_reactions
               (<[k := toggle (username u) (default [] (reactions m1 !! k))]>
                  (reactions m1)) m1).
  set (s2 := set_messages (insert r (<[i := m2]> (<[i := m1]> log))) s1).
  assert (reactors_of r messageId k s = l) as Hr0.
  { unfold reactors_of, find_message, log_of. rewrite Hlog. simpl.
    by rewrite Hlf. }
  assert (reactors_of r messageId k s1 = toggle (username u) l) as Hr1.
  { unfold reactors_of, find_message, log_of. simpl.
    rewrite lookup_insert_eq. simpl. rewrite Hlf1. simpl.
    by rewrite lookup_insert_eq. }
  assert (reactors_of r messageId k s2
          = toggle (username u) (toggle (username u) l)) as Hr2.
  { unfold reactors_of, find_message, log_of. simpl.
    rewrite lookup_insert_eq. simpl.
    rewrite (find_after_rewrite messageId _ i m1 m2 Hlf1); simpl.
    - by rewrite !lookup_insert_eq.
    - apply list_find_Some in Hlf as (_ & Hid & _). exact Hid. }
  exists s1, [Emit (ToRoom r) "message_updated" (P_message m1)],
         s2, [Emit (ToRoom r) "message_updated" (P_message m2)].
  split; [by apply add_reaction_found|].
  split.
  { apply (add_reaction_found sid env2 s1 u messageId k room
             (<[i := m1]> log) i m1); [done| |done|done].
    simpl. fold r. by rewrite lookup_insert_eq. }
  rewrite Hr0, Hr1, Hr2. split; [|split; [|split; [|split]]].
  - rewrite (toggle_elem_of _ _ l Hnd). intuition congruence.
  - intros x Hne. rewrite (toggle_elem_of _ _ l Hnd). intuition congruence.
  - intros x. by apply toggle_twice_elem_of.
  - done.
  - by do 2 apply toggle_NoDup.
Qed.

Lemma reaction_toggle_on_like :
  ∃ s1 acts1 s2 acts2,
    handle "s1" (Sample.env "3") (add_reaction "id-2" "like" None)
      alice_said_hi = Some (s1, acts1)
    ∧ handle "s1" (Sample.env "4") (add_reaction "id-2" "like" None) s1
      = Some (s2, acts2)
    ∧ (username alice ∈ reactors_of "global" "id-2" "like" s1
       ↔ username alice ∉ reactors_of "global" "id-2" "like" alice_said_hi)
    ∧ (∀ x, x ≠ username alice →
         x ∈ reactors_of "global" "id-2" "like" s1
         ↔ x ∈ reactors_of "global" "id-2" "like" alice_said_hi)
    ∧ (∀ x, x ∈ reactors_of "global" "id-2" "like" s2
            ↔ x ∈ reactors_of "global" "id-2" "like" alice_said_hi)
    ∧ NoDup (reactors_of "global" "id-2" "like" alice_said_hi)
    ∧ NoDup (reactors_of "global" "id-2" "like" s2).
Proof.
  apply (reaction_toggle_is_an_involution "s1" (Sample.env "3")
           (Sample.env "4") alice_said_hi alice "id-2" "like" None).
  - exists "t-0",
      [ Sample.inp "s1" "1" (user_join "alice" None);
        Sample.inp "s1" "2" (send_message "hi" None) ].
    vm_compute. reflexivity.
  - vm_compute. reflexivity.
  - eexists. vm_compute. reflexivity.
  - vm_compute. reflexivity.
Defined.

(** C5, where the code departs from it. A message's [reactions] starts as
    the object literal [{}], so for a reaction named like a member of
    [Object.prototype] the test [!message.reactions[reaction]] finds the
    inherited member and stores no array, and the call of [indexOf] on that
    member throws: Alice's [add_reaction] with the reaction ["constructor"]
    on her own message, which has no reactors at all, does not add her name;
    the handler does not return. *)
Theorem add_reaction_throws_on_inherited_name :
  getUserInfo "s1" alice_said_hi = Some alice
  ∧ (∃ m, find_message "global" "id-2" alice_said_hi = Some m
          ∧ reactions m = ∅)
  ∧ reactors_of "global" "id-2" "constructor" alice_said_hi = []
  ∧ handle "s1" (Sample.env "3") (add_reaction "id-2" "constructor" None)
      alice_said_hi = None.
Proof.
  split; [vm_compute; reflexivity|].
  split; [eexists; split; vm_compute; reflexivity|].
  split; vm_compute; reflexivity.
Qed.

(** * Further properties of the handlers *)

(** ** How one handler changes each registry *)

Lemma handle_users_change (sid : string) (env : Env) (ev : Event)
    (s s' : State) (acts : list Action) :
  handle sid env ev s = Some (s', acts) →
  users_change sid env ev s (users s').
Proof.
  intros Hrun. destruct ev; simpl in Hrun; split_handler Hrun;
    try (by apply users_same).
  - by eapply users_joined.
  - eapply users_moved; [done|by left|done].
  - eapply users_moved; [done|right; by eexists _, _|done].
  - by eapply users_left.
  - by eapply users_status.
Qed.

Lemma handle_rooms_change (sid : string) (env : Env) (ev : Event)
    (s s' : State) (acts : list Action) :
  handle sid env ev s = Some (s', acts) →
  rooms_change sid env ev s (rooms s').
Proof.
  intros Hrun. destruct ev; simpl in Hrun; split_handler Hrun;
    try (by apply rooms_same).
  by eapply rooms_created.
Qed.

Lemma handle_messages_change (sid : string) (env : Env) (ev : Event)
    (s s' : State) (acts : list Action) :
  handle sid env ev s = Some (s', acts) →
  messages_change sid env ev s (messages s').
Proof.
  intros Hrun. destruct ev; simpl in Hrun; split_handler Hrun;
    try (by apply messages_same).
  - by eapply messages_text.
  - by eapply messages_reacted.
  - by eapply messages_room_created.
  - by eapply messages_file.
Qed.

Lemma handle_typing_change (sid : string) (env : Env) (ev : Event)
    (s s' : State) (acts : list Action) :
  handle sid env ev s = Some (s', acts) →
  typing_change sid env ev s (typingUsers s').
Proof.
  intros Hrun. destruct ev; simpl in Hrun; split_handler Hrun;
    try (by apply typing_same).
  - by eapply typing_signal.
  - by eapply typing_room_created.
  - by eapply typing_cleared.
Qed.

Lemma handle_receipts_change (sid : string) (env : Env) (ev : Event)
    (s s' : State) (acts : list Action) :
  handle sid env ev s = Some (s', acts) →
  receipts_change sid ev s (readReceipts s').
Proof.
  intros Hrun. destruct ev; simpl in Hrun; split_handler Hrun;
    try (by apply receipts_same).
  by eapply receipts_marked.
Qed.

(** ** More on the insertion-ordered map *)

Section JsMap_more.
Context {V : Type}.
Implicit Types (m : list (string * V)) (k : string) (v : V).

Lemma JsMap_get_None_keys k m : JsMap.get k m = None ↔ k ∉ m.*1.
Proof.
  induction m as [|[k0 v0] m IH]; csimpl.
  - split; [intros _; apply not_elem_of_nil|done].
  - rewrite not_elem_of_cons. destruct (decide (k = k0)) as [->|Hne].
    + split; [done|]. by intros [? _].
    + rewrite IH. tauto.
Qed.

Lemma JsMap_set_absent k v m :
  JsMap.get k m = None → JsMap.set k v m = m ++ [(k, v)].
Proof.
  induction m as [|[k0 v0] m IH]; simpl; [done|].
  destruct (decide (k = k0)); [done|]. intros H. by rewrite IH.
Qed.

Lemma JsMap_set_keys k v m :
  (JsMap.set k v m).*1 = m.*1
  ∨ ((k ∉ m.*1) ∧ (JsMap.set k v m).*1 = (m.*1) ++ [k]).
Proof.
  destruct (JsMap.get k m) as [v0|] eqn:Hget.
  - left. apply JsMap_set_keys_present. eauto.
  - right. split; [by apply JsMap_get_None_keys|].
    by rewrite JsMap_set_absent, fmap_app.
Qed.

Lemma JsMap_set_keys_NoDup k v m :
  NoDup m.*1 → NoDup (JsMap.set k v m).*1.
Proof.
  intros Hnd. destruct (JsMap_set_keys k v m) as [->|[Hk ->]]; [done|].
  apply NoDup_app. split; [done|]. split; [|apply NoDup_singleton].
  intros x Hx ->%list_elem_of_singleton. done.
Qed.

Lemma JsMap_set_keys_prefix k v m : m.*1 `prefix_of` (JsMap.set k v m).*1.
Proof.
  destruct (JsMap_set_keys k v m) as [->|[_ ->]]; [done|].
  by apply prefix_app_r.
Qed.

Lemma JsMap_delete_keys_sublist k m : (JsMap.delete k m).*1 `sublist_of` m.*1.
Proof.
  induction m as [|[k0 v0] m IH]; csimpl; [done|].
  destruct (decide (k = k0)); csimpl.
  - by apply sublist_cons.
  - by apply sublist_skip.
Qed.

Lemma JsMap_get_delete_ne k k' m :
  k' ≠ k → JsMap.get k' (JsMap.delete k m) = JsMap.get k' m.
Proof.
  intros Hne. induction m as [|[k0 v0] m IH]; simpl; [done|].
  destruct (decide (k = k0)) as [->|Hk]; simpl.
  - by rewrite decide_False.
  - destruct (decide (k' = k0)); [done|]. exact IH.
Qed.

Lemma JsMap_get_delete_eq k m :
  NoDup m.*1 → JsMap.get k (JsMap.delete k m) = None.
Proof.
  induction m as [|[k0 v0] m IH]; csimpl; [done|].
  intros [Hk0 Hnd]%NoDup_cons.
  destruct (decide (k = k0)) as [->|Hk]; simpl.
  - by apply JsMap_get_None_keys.
  - rewrite decide_False by done. by apply IH.
Qed.

Lemma JsMap_delete_set_absent k v m :
  JsMap.get k m = None → JsMap.delete k (JsMap.set k v m) = m.
Proof.
  induction m as [|[k0 v0] m IH]; simpl.
  - intros _. by rewrite decide_True.
  - destruct (decide (k = k0)); [done|]. intros H. simpl.
    rewrite decide_False by done. by rewrite IH.
Qed.

Lemma JsMap_elem_of_get k v m :
  NoDup m.*1 → (k, v) ∈ m → JsMap.get k m = Some v.
Proof.
  induction m as [|[k0 v0] m IH]; csimpl.
  - by intros _ ?%elem_of_nil.
  - intros [Hk0 Hnd]%NoDup_cons [[= -> ->]|Hin]%elem_of_cons.
    + by rewrite decide_True.
    + rewrite decide_False; [by apply IH|].
      intros ->. apply Hk0. apply list_elem_of_fmap. by exists (k0, v).
Qed.

Lemma JsMap_set_head k v m :
  m ≠ [] → head (JsMap.set k v m).*1 = head m.*1.
Proof.
  destruct m as [|[k0 v0] m]; [done|]. intros _. simpl.
  by destruct (decide (k = k0)) as [->|].
Qed.
End JsMap_more.

(** ** Well-formed registries in every reachable state *)

Lemma init_users_wf (t0 : string) : users_wf (init t0).
Proof. split; [apply NoDup_nil_2|]. by intros k u ?%elem_of_nil. Qed.

Lemma handle_preserves_users_wf (sid : string) (env : Env) (ev : Event)
    (s s' : State) (acts : list Action) :
  users_wf s → handle sid env ev s = Some (s', acts) → users_wf s'.
Proof.
  intros [Hnd Hid] Hrun. unfold users_wf.
  assert (∀ u, getUserInfo sid s = Some u → u_id u = sid) as Hsid.
  { intros u Hu. apply Hid. by apply JsMap_get_elem_of. }
  destruct (handle_users_change sid env ev s s' acts Hrun)
    as [->| name av _ -> | u r Hu _ -> | u st Hu _ -> | u Hu _ ->].
  - done.
  - split; [by apply JsMap_set_keys_NoDup|].
    intros k u' [[= -> ->]|Hin]%JsMap_set_elem_of; [done|by apply Hid].
  - split; [by apply JsMap_set_keys_NoDup|].
    intros k u' [[= -> ->]|Hin]%JsMap_set_elem_of;
      [simpl; by apply Hsid|by apply Hid].
  - split; [by apply JsMap_set_keys_NoDup|].
    intros k u' [[= -> ->]|Hin]%JsMap_set_elem_of;
      [simpl; by apply Hsid|by apply Hid].
  - split.
    + eapply sublist_NoDup; [exact Hnd|apply JsMap_delete_keys_sublist].
    + intros k u' Hin%JsMap_delete_elem_of. by apply Hid.
Qed.

Lemma reachable_users_wf (s : State) : reachable s → users_wf s.
Proof.
  intros (t0 & tr & Hrun).
  eapply (run_invariant users_wf); [|apply init_users_wf|done].
  intros sid env ev s0 s1 acts. apply handle_preserves_users_wf.
Qed.

Lemma init_rooms_wf (t0 : string) : rooms_wf (init t0).
Proof.
  split; [|split].
  - simpl. apply NoDup_singleton.
  - intros k r Hin. simpl in Hin. apply list_elem_of_singleton in Hin.
    by injection Hin as -> ->.
  - done.
Qed.

Lemma handle_preserves_rooms_wf (sid : string) (env : Env) (ev : Event)
    (s s' : State) (acts : list Action) :
  rooms_wf s → handle sid env ev s = Some (s', acts) → rooms_wf s'.
Proof.
  intros (Hnd & Hid & Hhead) Hrun. unfold rooms_wf.
  destruct (handle_rooms_change sid env ev s s' acts Hrun)
    as [->| u name p _ _ ->]; [done|].
  split; [by apply JsMap_set_keys_NoDup|]. split.
  - intros k r [[= -> ->]|Hin]%JsMap_set_elem_of; [done|by apply Hid].
  - rewrite JsMap_set_head; [done|]. intros Hnil. by rewrite Hnil in Hhead.
Qed.

Lemma reachable_rooms_wf (s : State) : reachable s → rooms_wf s.
Proof.
  intros (t0 & tr & Hrun).
  eapply (run_invariant rooms_wf); [|apply init_rooms_wf|done].
  intros sid env ev s0 s1 acts. apply handle_preserves_rooms_wf.
Qed.

Lemma two_users_reachable : reachable two_users.
Proof. exists "t-0", two_users_trace. vm_compute. reflexivity. Qed.

(** X1. In every reachable state the list of users served by [/api/users]
    and broadcast as [user_list] names each socket id once, every listed
    user is the identity that [getUserInfo] returns for its id, and
    [/health] counts exactly those users. *)
Theorem user_list_is_one_entry_per_socket (env : Env) (s : State) :
  reachable s →
  NoDup (u_id <$> api_users s)
  ∧ (∀ u, u ∈ api_users s → getUserInfo (u_id u) s = Some u)
  ∧ (∀ sid u, getUserInfo sid s = Some u → u ∈ api_users s ∧ u_id u = sid)
  ∧ h_users (health env s) = length (api_users s).
Proof.
  intros [Hnd Hid]%reachable_users_wf. unfold api_users, JsMap.values.
  assert (u_id <$> (users s).*2 = (users s).*1) as Hkeys.
  { rewrite <- list_fmap_compose. apply list_fmap_ext.
    intros i [k u] Hi%list_elem_of_lookup_2. simpl. by apply Hid. }
  rewrite Hkeys. split; [done|]. split; [|split].
  - intros u ([k u'] & -> & Hin)%list_elem_of_fmap. simpl.
    rewrite (Hid k u' Hin). by apply JsMap_elem_of_get.
  - intros sid u Hu%JsMap_get_elem_of. split; [|by apply Hid].
    apply list_elem_of_fmap. by exists (sid, u).
  - simpl. by rewrite length_fmap.
Qed.

Lemma user_list_is_one_entry_per_socket_witness :
  NoDup (u_id <$> api_users two_users)
  ∧ (∀ u, u ∈ api_users two_users → getUserInfo (u_id u) two_users = Some u)
  ∧ (∀ sid u, getUserInfo sid two_users = Some u →
       u ∈ api_users two_users ∧ u_id u = sid)
  ∧ h_users (health (Sample.env "9") two_users) = length (api_users two_users).
Proof.
  apply (user_list_is_one_entry_per_socket (Sample.env "9") two_users).
  apply two_users_reachable.
Defined.

(** X2. In every reachable state the room list served by [/api/rooms] and
    sent as [room_list] starts with the default room, names each room id
    once, and every listed room is the one stored under its id; so the list
    is never empty and [/health] reports at least one room. *)
Theorem room_list_starts_with_default_room (env : Env) (s : State) :
  reachable s →
  (∃ r rest, api_rooms s = r :: rest ∧ r_id r = DEFAULT_ROOM)
  ∧ NoDup (r_id <$> api_rooms s)
  ∧ (∀ r, r ∈ api_rooms s → JsMap.get (r_id r) (rooms s) = Some r)
  ∧ 1 ≤ h_rooms (health env s).
Proof.
  intros (Hnd & Hid & Hhead)%reachable_rooms_wf.
  unfold api_rooms, JsMap.values.
  assert (r_id <$> (rooms s).*2 = (rooms s).*1) as Hkeys.
  { rewrite <- list_fmap_compose. apply list_fmap_ext.
    intros i [k r] Hi%list_elem_of_lookup_2. simpl. by apply Hid. }
  rewrite Hkeys. split; [|split; [done|split]].
  - destruct (rooms s) as [|[k r] rest] eqn:Hrooms; [done|].
    exists r, rest.*2. split; [done|]. injection Hhead as <-.
    apply Hid. by left.
  - intros r ([k r'] & -> & Hin)%list_elem_of_fmap. simpl.
    rewrite (Hid k r' Hin). by apply JsMap_elem_of_get.
  - simpl. destruct (rooms s); [done|]. simpl. lia.
Qed.

Lemma room_list_starts_with_default_room_witness :
  (∃ r rest, api_rooms two_users = r :: rest ∧ r_id r = DEFAULT_ROOM)
  ∧ NoDup (r_id <$> api_rooms two_users)
  ∧ (∀ r, r ∈ api_rooms two_users →
       JsMap.get (r_id r) (rooms two_users) = Some r)
  ∧ 1 ≤ h_rooms (health (Sample.env "9") two_users).
Proof.
  apply (room_list_starts_with_default_room (Sample.env "9") two_users).
  apply two_users_reachable.
Defined.

Lemma handle_room_keys_prefix (sid : string) (env : Env) (ev : Event)
    (s s' : State) (acts : list Action) :
  handle sid env ev s = Some (s', acts) →
  (rooms s).*1 `prefix_of` (rooms s').*1.
Proof.
  intros Hrun.
  destruct (handle_rooms_change sid env ev s s' acts Hrun)
    as [->| u name p _ _ ->]; [done|apply JsMap_set_keys_prefix].
Qed.

(** X3. Rooms are append-only: along any run, from any state, the sequence
    of room ids kept in [rooms] only grows at its end. No handler removes a
    room or changes the order of the room list. *)
Theorem rooms_are_append_only (s s' : State) (tr : list Input) :
  run s tr = Some s' →
  (rooms s).*1 `prefix_of` (rooms s').*1.
Proof.
  revert s. induction tr as [|i tr IH]; intros s Hrun; simpl in Hrun.
  - by injection Hrun as <-.
  - unfold step in Hrun.
    destruct (handle (in_sid i) (in_env i) (in_event i) s) as [[s1 acts]|]
      eqn:Hh; simpl in Hrun; [|discriminate].
    etrans; [by eapply handle_room_keys_prefix|by apply IH].
Qed.

Lemma rooms_are_append_only_witness :
  (rooms Sample.start).*1 `prefix_of` (rooms two_users).*1.
Proof.
  apply (rooms_are_append_only Sample.start two_users two_users_trace).
  vm_compute. reflexivity.
Defined.

(** ** Leaving *)

Lemma JsMap_delete_length {V : Type} (k : string) (m : list (string * V)) :
  is_Some (JsMap.get k m) → length (JsMap.delete k m) + 1 = length m.
Proof.
  induction m as [|[k0 v0] m IH]; simpl.
  - by intros [? ?].
  - destruct (decide (k = k0)); simpl; [lia|]. intros H. rewrite <- IH; done.
Qed.

Lemma on_disconnect_registered (sid : string) (env : Env) (s : State)
    (u : User) :
  getUserInfo sid s = Some u →
  handle sid env disconnect s
  = Some (mkState (JsMap.delete sid (users s)) (rooms s) (messages s)
            (JsSet.delete (username u) <$> typingUsers s) (readReceipts s),
          [ Emit (ToRoom (currentRoom u)) "user_left"
              (P_user_room u (currentRoom u));
            Emit ToAll "user_list"
              (P_user_list (JsMap.values (JsMap.delete sid (users s)))) ]).
Proof. intros Hu. simpl. unfold on_disconnect. by rewrite Hu. Qed.

(** X4. In a reachable state, [disconnect] on a registered socket removes
    exactly that socket's identity: the socket is unregistered afterwards,
    every other socket keeps its identity, the user list broadcast to all
    is one entry shorter and no longer contains the user, and the
    [user_left] notice goes to the room the user was last in. Rooms,
    message logs and read receipts are untouched. *)
Theorem disconnect_unregisters_the_socket (sid : string) (env : Env)
    (s : State) (u : User) :
  reachable s →
  getUserInfo sid s = Some u →
  ∃ s',
    handle sid env disconnect s
    = Some (s', [ Emit (ToRoom (currentRoom u)) "user_left"
                    (P_user_room u (currentRoom u));
                  Emit ToAll "user_list" (P_user_list (api_users s')) ])
    ∧ getUserInfo sid s' = None
    ∧ (∀ sid', sid' ≠ sid → getUserInfo sid' s' = getUserInfo sid' s)
    ∧ (u ∉ api_users s')
    ∧ length (api_users s') + 1 = length (api_users s)
    ∧ rooms s' = rooms s ∧ messages s' = messages s
    ∧ readReceipts s' = readReceipts s.
Proof.
  intros [Hnd Hid]%reachable_users_wf Hu.
  exists (mkState (JsMap.delete sid (users s)) (rooms s) (messages s)
            (JsSet.delete (username u) <$> typingUsers s) (readReceipts s)).
  split; [by rewrite (on_disconnect_registered sid env s u Hu)|].
  unfold getUserInfo, api_users, JsMap.values. simpl.
  split; [by apply JsMap_get_delete_eq|].
  split; [intros sid' Hne; by apply JsMap_get_delete_ne|].
  split; [|split; [|done]].
  - intros ([k u'] & -> & Hin)%list_elem_of_fmap. simpl in *.
    pose proof (JsMap_delete_elem_of _ _ _ _ Hin) as Hold.
    assert (k = sid) as ->.
    { rewrite <- (Hid k u' Hold). apply Hid. by apply JsMap_get_elem_of. }
    apply JsMap_elem_of_get_is_Some in Hin as [? Hin].
    by rewrite JsMap_get_delete_eq in Hin.
  - rewrite !length_fmap. apply JsMap_delete_length.
    unfold getUserInfo in Hu. rewrite Hu. eauto.
Qed.

Lemma disconnect_unregisters_the_socket_witness :
  ∃ s',
    handle "s2" (Sample.env "9") disconnect two_users
    = Some (s', [ Emit (ToRoom "global") "user_left"
                    (P_user_room
                       (mkUser "s2" "bob" (Some "b.png") "t-2" "global"
                          "online") "global");
                  Emit ToAll "user_list" (P_user_list (api_users s')) ])
    ∧ getUserInfo "s2" s' = None
    ∧ (∀ sid', sid' ≠ "s2" → getUserInfo sid' s' = getUserInfo sid' two_users)
    ∧ (mkUser "s2" "bob" (Some "b.png") "t-2" "global" "online"
         ∉ api_users s')
    ∧ length (api_users s') + 1 = length (api_users two_users)
    ∧ rooms s' = rooms two_users ∧ messages s' = messages two_users
    ∧ readReceipts s' = readReceipts two_users.
Proof.
  apply (disconnect_unregisters_the_socket "s2" (Sample.env "9") two_users
           (mkUser "s2" "bob" (Some "b.png") "t-2" "global" "online")).
  - apply two_users_reachable.
  - vm_compute. reflexivity.
Defined.

Lemma JsSet_delete_absent (x : string) (s : list string) :
  x ∉ s → JsSet.delete x s = s.
Proof.
  intros Hx. unfold JsSet.delete. induction s as [|y s IH]; [done|].
  apply not_elem_of_cons in Hx as [Hne Hx].
  rewrite filter_cons_True by done. by rewrite IH.
Qed.

(** X5. Joining and leaving at once is a round trip on the identities: for a
    socket that is not registered, [user_join] followed by [disconnect]
    leaves [users], [rooms], the logs and the read receipts exactly as they
    were. The typing sets lose the name the socket joined under, and the
    whole state is as before when that name was typing nowhere. *)
Theorem join_then_disconnect_round_trip (sid : string) (env1 env2 : Env)
    (name : string) (av : option string) (s : State) :
  getUserInfo sid s = None →
  ∃ s1 acts1 s2 acts2,
    handle sid env1 (user_join name av) s = Some (s1, acts1)
    ∧ handle sid env2 disconnect s1 = Some (s2, acts2)
    ∧ users s2 = users s ∧ rooms s2 = rooms s ∧ messages s2 = messages s
    ∧ readReceipts s2 = readReceipts s
    ∧ typingUsers s2 = JsSet.delete name <$> typingUsers s
    ∧ ((∀ r ts, typingUsers s !! r = Some ts → name ∉ ts) → s2 = s).
Proof.
  intros Hnone.
  set (u := mkUser sid name av (now env1) DEFAULT_ROOM "online").
  set (s1 := set_users (JsMap.set sid u) s).
  assert (getUserInfo sid s1 = Some u) as Hu1.
  { unfold getUserInfo, s1. simpl. apply JsMap_get_set_eq. }
  eexists s1, _, _, _. split; [reflexivity|].
  split; [by apply on_disconnect_registered|]. simpl.
  assert (JsMap.delete sid (JsMap.set sid u (users s)) = users s) as Hback
    by by apply JsMap_delete_set_absent.
  rewrite Hback. split; [done|]. do 4 (split; [done|]).
  intros Hquiet. destruct s as [us rs ms ts rr]. simpl in *. f_equal.
  apply map_eq. intros r. rewrite lookup_fmap.
  destruct (ts !! r) as [l|] eqn:Hr; simpl; [|done].
  f_equal. apply JsSet_delete_absent. by eapply Hquiet.
Qed.

Lemma join_then_disconnect_round_trip_witness :
  ∃ s1 acts1 s2 acts2,
    handle "s3" (Sample.env "8") (user_join "carol" None) two_users
      = Some (s1, acts1)
    ∧ handle "s3" (Sample.env "9") disconnect s1 = Some (s2, acts2)
    ∧ users s2 = users two_users ∧ rooms s2 = rooms two_users
    ∧ messages s2 = messages two_users
    ∧ readReceipts s2 = readReceipts two_users
    ∧ typingUsers s2 = JsSet.delete "carol" <$> typingUsers two_users
    ∧ ((∀ r ts, typingUsers two_users !! r = Some ts → "carol" ∉ ts) →
       s2 = two_users).
Proof.
  apply (join_then_disconnect_round_trip "s3" (Sample.env "8")
           (Sample.env "9") "carol" None two_users).
  vm_compute. reflexivity.
Defined.

Lemma handle_keeps_identity (sid sid0 : string) (env : Env) (ev : Event)
    (s s' : State) (acts : list Action) (u : User) :
  keeps_identity sid (mkInput sid0 env ev) = true →
  handle sid0 env ev s = Some (s', acts) →
  getUserInfo sid s = Some u →
  ∃ u', getUserInfo sid s' = Some u'
        ∧ u_id u' = u_id u ∧ username u' = username u
        ∧ avatar u' = avatar u ∧ joinedAt u' = joinedAt u.
Proof.
  intros Hkeep Hrun Hu. unfold keeps_identity in Hkeep. simpl in Hkeep.
  apply negb_true_iff, andb_false_iff in Hkeep.
  unfold getUserInfo in *.
  destruct (handle_users_change sid0 env ev s s' acts Hrun)
    as [->| name av -> -> | u0 r Hu0 _ -> | u0 st Hu0 _ -> | u0 Hu0 -> ->].
  - by exists u.
  - destruct Hkeep as [Hne%bool_decide_eq_false|?]; [|done].
    rewrite JsMap_get_set_ne by done. by exists u.
  - destruct (decide (sid = sid0)) as [->|Hne].
    + rewrite JsMap_get_set_eq. unfold getUserInfo in Hu0.
      rewrite Hu in Hu0. injection Hu0 as <-. by eexists.
    + rewrite JsMap_get_set_ne by done. by exists u.
  - destruct (decide (sid = sid0)) as [->|Hne].
    + rewrite JsMap_get_set_eq. unfold getUserInfo in Hu0.
      rewrite Hu in Hu0. injection Hu0 as <-. by eexists.
    + rewrite JsMap_get_set_ne by done. by exists u.
  - destruct Hkeep as [Hne%bool_decide_eq_false|?]; [|done].
    rewrite JsMap_get_delete_ne by done. by exists u.
Qed.

(** X6. An identity is stable: as long as no [user_join] and no
    [disconnect] arrives on a registered socket, the socket stays
    registered with the same id, username, avatar and join time, whatever
    that socket and the other sockets send. Only its current room and
    status can change. *)
Theorem identity_is_stable (sid : string) (tr : list Input) :
  ∀ (s s' : State) (u : User),
    Forall (λ i, keeps_identity sid i = true) tr →
    run s tr = Some s' →
    getUserInfo sid s = Some u →
    ∃ u', getUserInfo sid s' = Some u'
          ∧ u_id u' = u_id u ∧ username u' = username u
          ∧ avatar u' = avatar u ∧ joinedAt u' = joinedAt u.
Proof.
  induction tr as [|[sid0 env ev] tr IH]; intros s s' u Hall Hrun Hu;
    simpl in Hrun.
  - injection Hrun as <-. by exists u.
  - apply Forall_cons in Hall as [Hi Hall]. unfold step in Hrun.
    simpl in Hrun.
    destruct (handle sid0 env ev s) as [[s1 acts]|] eqn:Hh; simpl in Hrun;
      [|discriminate].
    destruct (handle_keeps_identity sid sid0 env ev s s1 acts u Hi Hh Hu)
      as (u1 & Hu1 & E1 & E2 & E3 & E4).
    destruct (IH s1 s' u1 Hall Hrun Hu1) as (u' & Hu' & F1 & F2 & F3 & F4).
    exists u'. split; [done|]. repeat split; congruence.
Qed.

Lemma identity_is_stable_witness :
  ∃ u', getUserInfo "s1" two_users = Some u'
        ∧ u_id u' = u_id alice ∧ username u' = username alice
        ∧ avatar u' = avatar alice ∧ joinedAt u' = joinedAt alice.
Proof.
  apply (identity_is_stable "s1" (drop 1 two_users_trace) alice_joined
           two_users alice).
  - repeat apply Forall_cons_2; try apply Forall_nil_2; reflexivity.
  - vm_compute. reflexivity.
  - vm_compute. reflexivity.
Defined.

(** X7. Typing sets hold usernames, not sockets: when two registered
    sockets share a username and one of them disconnects, the other stays
    registered but the shared name is removed from every typing set, also
    where it was the other socket that was typing. *)
Theorem disconnect_clears_typing_of_namesake (sid sid' : string) (env : Env)
    (s : State) (u u' : User) :
  getUserInfo sid s = Some u →
  getUserInfo sid' s = Some u' →
  sid' ≠ sid →
  username u' = username u →
  ∃ s' acts,
    handle sid env disconnect s = Some (s', acts)
    ∧ getUserInfo sid' s' = Some u'
    ∧ ∀ r ts, typingUsers s' !! r = Some ts → username u' ∉ ts.
Proof.
  intros Hu Hu' Hne Hname.
  eexists _, _. split; [by apply on_disconnect_registered|]. simpl. split.
  - unfold getUserInfo in *. simpl. by rewrite JsMap_get_delete_ne.
  - intros r ts Hr. rewrite lookup_fmap in Hr.
    destruct (typingUsers s !! r) as [ts0|]; simpl in Hr; [|discriminate].
    injection Hr as <-. rewrite Hname, JsSet_delete_spec. tauto.
Qed.

Lemma disconnect_clears_typing_of_namesake_witness :
  typingUsers same_name !! "global" = Some ["alice"]
  ∧ ∃ s' acts,
      handle "s2" (Sample.env "9") disconnect same_name = Some (s', acts)
      ∧ getUserInfo "s1" s' = Some alice
      ∧ ∀ r ts, typingUsers s' !! r = Some ts → username alice ∉ ts.
Proof.
  split; [vm_compute; reflexivity|].
  apply (disconnect_clears_typing_of_namesake "s2" "s1" (Sample.env "9")
           same_name (mkUser "s2" "alice" None "t-2" "global" "online") alice).
  - vm_compute. reflexivity.
  - vm_compute. reflexivity.
  - done.
  - reflexivity.
Defined.

(** ** Typing *)

Lemma JsSet_add_spec (x y : string) (s : list string) :
  y ∈ JsSet.add x s ↔ y = x ∨ y ∈ s.
Proof.
  unfold JsSet.add. case_decide as Hin.
  - split; [by right|]. by intros [->|?].
  - rewrite elem_of_app, list_elem_of_singleton. tauto.
Qed.

Lemma JsSet_add_NoDup (x : string) (s : list string) :
  NoDup s → NoDup (JsSet.add x s).
Proof.
  intros Hnd. unfold JsSet.add. case_decide as Hin; [done|].
  apply NoDup_app. split; [done|]. split; [|apply NoDup_singleton].
  intros y Hy ->%list_elem_of_singleton. done.
Qed.

Lemma JsSet_delete_NoDup (x : string) (s : list string) :
  NoDup s → NoDup (JsSet.delete x s).
Proof. intros Hnd. unfold JsSet.delete. by apply NoDup_filter. Qed.

(** X8. The latest typing signal wins. For a registered user, [typing] with
    flag [b] leaves the user's name in the room's typing set exactly when
    [b] is true, whatever the set held before and also when the room had no
    typing set yet; the other names of that set and the typing sets of the
    other rooms are as before, as are the other registries; and the
    resulting list is broadcast to the room with the sender excepted. *)
Theorem typing_sets_membership_to_the_flag (sid : string) (env : Env)
    (s : State) (u : User) (b : bool) (room : option string) :
  getUserInfo sid s = Some u →
  sid ≠ "" →
  let r := room_or_default room in
  ∃ s' ts',
    handle sid env (typing b room) s
    = Some (s', [ Emit (ToRoomExcept r sid) "typing_users"
                    (P_typing_users ts' r) ])
    ∧ typingUsers s' !! r = Some ts'
    ∧ (username u ∈ ts' ↔ b = true)
    ∧ (∀ x, x ≠ username u →
         x ∈ ts' ↔ x ∈ default [] (typingUsers s !! r))
    ∧ (∀ r', r' ≠ r → typingUsers s' !! r' = typingUsers s !! r')
    ∧ users s' = users s ∧ rooms s' = rooms s ∧ messages s' = messages s
    ∧ readReceipts s' = readReceipts s.
Proof.
  intros Hu Hsid r. simpl. unfold on_typing. rewrite Hu.
  eexists _, _. split.
  { unfold broadcastToRoom, truthy. by rewrite bool_decide_eq_false_2. }
  simpl. fold r. split; [by rewrite lookup_insert_eq|].
  split; [|split; [|split; [|done]]].
  - destruct b.
    + rewrite JsSet_add_spec. split; [done|]. intros _. by left.
    + rewrite JsSet_delete_spec. split; [by intros [? _]|done].
  - intros x Hne. destruct b.
    + rewrite JsSet_add_spec. split; [by intros [?|?]|by right].
    + rewrite JsSet_delete_spec. tauto.
  - intros r' Hne. by rewrite lookup_insert_ne.
Qed.

Lemma typing_sets_membership_to_the_flag_witness :
  ∃ s' ts',
    handle "s2" (Sample.env "9") (typing true (Some "nowhere")) two_users
    = Some (s', [ Emit (ToRoomExcept "nowhere" "s2") "typing_users"
                    (P_typing_users ts' "nowhere") ])
    ∧ typingUsers s' !! "nowhere" = Some ts'
    ∧ ("bob" ∈ ts' ↔ true = true)
    ∧ (∀ x, x ≠ "bob" →
         x ∈ ts' ↔ x ∈ default [] (typingUsers two_users !! "nowhere"))
    ∧ (∀ r', r' ≠ "nowhere" →
         typingUsers s' !! r' = typingUsers two_users !! r')
    ∧ users s' = users two_users ∧ rooms s' = rooms two_users
    ∧ messages s' = messages two_users
    ∧ readReceipts s' = readReceipts two_users.
Proof.
  apply (typing_sets_membership_to_the_flag "s2" (Sample.env "9") two_users
           (mkUser "s2" "bob" (Some "b.png") "t-2" "global" "online") true
           (Some "nowhere")).
  - vm_compute. reflexivity.
  - done.
Defined.

Lemma init_typing_distinct (t0 : string) : typing_distinct (init t0).
Proof.
  intros r ts Hr. simpl in Hr.
  apply lookup_singleton_Some in Hr as [_ <-]. apply NoDup_nil_2.
Qed.

Lemma handle_preserves_typing_distinct (sid : string) (env : Env)
    (ev : Event) (s s' : State) (acts : list Action) :
  typing_distinct s → handle sid env ev s = Some (s', acts) →
  typing_distinct s'.
Proof.
  intros Hinv Hrun r ts Hr.
  destruct (handle_typing_change sid env ev s s' acts Hrun)
    as [Hsame| u b room _ _ r0 old Hts | u name p _ _ Hts | u _ _ Hts].
  - rewrite Hsame in Hr. by eapply Hinv.
  - rewrite Hts in Hr. destruct (decide (r = r0)) as [->|Hne].
    + rewrite lookup_insert_eq in Hr. injection Hr as <-.
      assert (NoDup old) as Hold.
      { unfold old. destruct (typingUsers s !! r0) as [l|] eqn:Hl; simpl.
        - by eapply Hinv.
        - apply NoDup_nil_2. }
      destruct b; [by apply JsSet_add_NoDup|by apply JsSet_delete_NoDup].
    + rewrite lookup_insert_ne in Hr by done. by eapply Hinv.
  - rewrite Hts in Hr. destruct (decide (r = uuid env)) as [->|Hne].
    + rewrite lookup_insert_eq in Hr. injection Hr as <-. apply NoDup_nil_2.
    + rewrite lookup_insert_ne in Hr by done. by eapply Hinv.
  - rewrite Hts, lookup_fmap in Hr.
    destruct (typingUsers s !! r) as [l|] eqn:Hl; simpl in Hr; [|discriminate].
    injection Hr as <-. apply JsSet_delete_NoDup. by eapply Hinv.
Qed.

(** X9. In every reachable state no typing set holds a name twice, so a
    [typing_users] list never shows a user more than once however often the
    client repeats its typing signal. *)
Theorem typing_sets_have_no_repetition (s : State) (r : string)
    (ts : list string) :
  reachable s →
  typingUsers s !! r = Some ts →
  NoDup ts.
Proof.
  intros (t0 & tr & Hrun) Hr.
  assert (typing_distinct s) as Hinv; [|by eapply Hinv].
  eapply (run_invariant typing_distinct); [|apply init_typing_distinct|done].
  intros sid env ev s0 s1 acts. apply handle_preserves_typing_distinct.
Qed.

Lemma typing_sets_have_no_repetition_witness :
  typingUsers two_users !! "id-3" = Some ["alice"] ∧ NoDup ["alice"].
Proof.
  split; [vm_compute; reflexivity|].
  apply (typing_sets_have_no_repetition two_users "id-3" ["alice"]).
  - apply two_users_reachable.
  - vm_compute. reflexivity.
Defined.

(** ** The bound on the logs, text messages only *)

Lemma init_logs_bounded (t0 : string) : logs_bounded (init t0).
Proof.
  intros r log Hr. simpl in Hr.
  apply lookup_singleton_Some in Hr as [_ <-]. simpl. lia.
Qed.

Lemma log_of_bounded (r : string) (s : State) :
  logs_bounded s → length (log_of r s) ≤ 100.
Proof.
  intros Hb. unfold log_of.
  destruct (messages s !! r) as [log|] eqn:Hr; simpl; [by eapply Hb|lia].
Qed.

Lemma handle_preserves_logs_bounded (sid : string) (env : Env) (ev : Event)
    (s s' : State) (acts : list Action) :
  logs_bounded s → is_file_uploaded ev = false →
  handle sid env ev s = Some (s', acts) →
  logs_bounded s'.
Proof.
  intros Hb Hev Hrun r log Hr.
  destruct (handle_messages_change sid env ev s s' acts Hrun)
    as [Hsame| u msg room _ _ r0 pushed Hms | u fd room _ -> _ _
       | u mid k room log0 i m _ _ Hlog0 _ _ Hms | u name p _ _ Hms];
    [|..|].
  - rewrite Hsame in Hr. by eapply Hb.
  - rewrite Hms in Hr. destruct (decide (r = r0)) as [->|Hne].
    + rewrite lookup_insert_eq in Hr. injection Hr as <-.
      pose proof (log_of_bounded r0 s Hb) as Hold.
      assert (length pushed = length (log_of r0 s) + 1) as Hlen
        by (unfold pushed, JsArray.push; rewrite length_app; simpl; lia).
      case_decide; [rewrite shift_length|]; lia.
    + rewrite lookup_insert_ne in Hr by done. by eapply Hb.
  - discriminate Hev.
  - rewrite Hms in Hr.
    destruct (decide (r = room_or_default room)) as [->|Hne].
    + rewrite lookup_insert_eq in Hr. injection Hr as <-.
      rewrite length_insert. by eapply Hb.
    + rewrite lookup_insert_ne in Hr by done. by eapply Hb.
  - rewrite Hms in Hr. destruct (decide (r = uuid env)) as [->|Hne].
    + rewrite lookup_insert_eq in Hr. injection Hr as <-. simpl. lia.
    + rewrite lookup_insert_ne in Hr by done. by eapply Hb.
Qed.

(** X10. As long as no file is uploaded, the bound holds in every room:
    after any run from the start in which no [file_uploaded] event occurs,
    every log, and so every answer of [/api/messages/:roomId], has at most
    100 messages. *)
Theorem logs_bounded_without_uploads (t0 : string) (tr : list Input)
    (s : State) (roomId : string) :
  Forall (λ i, is_file_uploaded (in_event i) = false) tr →
  run (init t0) tr = Some s →
  length (api_messages roomId s) ≤ 100.
Proof.
  intros Hall Hrun. apply (log_of_bounded roomId s).
  pose proof (init_logs_bounded t0) as Hb. revert Hall Hrun Hb.
  generalize (init t0). induction tr as [|i tr IH]; intros s0 Hall Hrun Hb;
    simpl in Hrun.
  - by injection Hrun as <-.
  - apply Forall_cons in Hall as [Hi Hall]. unfold step in Hrun.
    destruct (handle (in_sid i) (in_env i) (in_event i) s0) as [[s1 acts]|]
      eqn:Hh; simpl in Hrun; [|discriminate].
    eapply (IH s1); [done|done|]. by eapply handle_preserves_logs_bounded.
Qed.

Lemma logs_bounded_without_uploads_witness :
  length (api_messages "global"
            (Sample.after
               (Sample.inp "s1" "1" (user_join "alice" None) :: texts 120)))
  ≤ 100.
Proof.
  apply (logs_bounded_without_uploads "t-0"
           (Sample.inp "s1" "1" (user_join "alice" None) :: texts 120)).
  - apply Forall_forall. intros i [->|Hi]%elem_of_cons; [done|].
    unfold texts in Hi. apply list_elem_of_fmap in Hi as (k & -> & _). done.
  - vm_compute. reflexivity.
Defined.

Lemma cap_after_push {A : Type} (x : A) (pre : list A) :
  let pushed := JsArray.push x (JsArray.slice_last 100 pre) in
  (if decide (100 < length pushed) then JsArray.shift pushed else pushed)
  = JsArray.slice_last 100 (pre ++ [x]).
Proof.
  intros pushed. unfold pushed, JsArray.push.
  assert (length (pre ++ [x]) = length pre + 1) as Hlen
    by (rewrite length_app; simpl; lia).
  destruct (decide (length pre < 100)) as [Hshort|Hlong].
  - rewrite (slice_last_short 100 pre) by lia.
    rewrite decide_False by lia.
    rewrite slice_last_short; [done|lia].
  - assert (length (JsArray.slice_last 100 pre ++ [x]) = 101) as Hfull.
    { rewrite length_app, slice_last_length. change (length [x]) with 1.
      lia. }
    rewrite decide_True by lia. rewrite shift_as_drop.
    unfold JsArray.slice_last. rewrite Hlen.
    rewrite drop_snoc by lia. rewrite drop_drop. f_equal. lia.
Qed.

Lemma run_texts_log (r : string) (tr : list Input) :
  ∀ (s : State) (pre : list Message),
    Forall (text_by_registered r s) tr →
    log_of r s = JsArray.slice_last 100 pre →
    ∃ s',
      run s tr = Some s'
      ∧ users s' = users s
      ∧ log_of r s' = JsArray.slice_last 100 (pre ++ appended s tr).
Proof.
  induction tr as [|[sid env ev] tr IH]; intros s pre Hall Hlog.
  - exists s. simpl. by rewrite app_nil_r.
  - apply Forall_cons in Hall as [[Hev [u Hu]] Hall]. simpl in Hev, Hu.
    destruct ev; simpl in Hev; try discriminate.
    apply bool_decide_eq_true in Hev. subst r.
    destruct (send_message_registered sid env msg room s u Hu)
      as (s1 & acts & Hh & Hus & Hlog1).
    rewrite Hlog, cap_after_push in Hlog1.
    assert (Forall (text_by_registered (room_or_default room) s1) tr)
      as Hall1.
    { eapply Forall_impl; [exact Hall|]. intros j [? ?]. split; [done|].
      unfold getUserInfo in *. by rewrite Hus. }
    destruct (IH s1 _ Hall1 Hlog1) as (s' & Hrun & Hus' & Hlog').
    assert (step s (mkInput sid env (send_message msg room)) = Some s1)
      as Hstep by (unfold step; cbn [in_sid in_env in_event]; by rewrite Hh).
    exists s'. cbn [run]. rewrite Hstep.
    split; [done|]. split; [congruence|].
    rewrite Hlog', (appended_same_users s s1 tr Hus).
    rewrite (appended_cons s (mkInput sid env (send_message msg room)) tr
               (text_messageData sid env u msg (room_or_default room))).
    + by rewrite <- app_assoc.
    + simpl. by rewrite Hu.
Qed.

(** X11. Text messages are retained first in, first out: starting from a
    room without messages, after any number of [send_message] events by
    registered users to that room, the room's log is exactly the last 100
    of the messages sent, in the order they were sent. *)
Theorem text_log_is_the_last_100_sent (r : string) (s : State)
    (tr : list Input) :
  log_of r s = [] →
  Forall (text_by_registered r s) tr →
  ∃ s',
    run s tr = Some s'
    ∧ length (appended s tr) = length tr
    ∧ api_messages r s' = JsArray.slice_last 100 (appended s tr)
    ∧ length (api_messages r s') = Nat.min 100 (length tr).
Proof.
  intros Hempty Hall.
  destruct (run_texts_log r tr s [] Hall Hempty) as (s' & Hrun & _ & Hlog).
  simpl in Hlog.
  assert (length (appended s tr) = length tr) as Hlen.
  { clear -Hall. induction Hall as [|[sid env ev] tr [Hev [u Hu]] _ IH];
      [done|].
    simpl in Hev, Hu. destruct ev; simpl in Hev; try discriminate.
    rewrite (appended_cons s _ tr
               (text_messageData sid env u msg (room_or_default room))).
    - simpl. by rewrite IH.
    - simpl. by rewrite Hu. }
  exists s'. split; [done|]. split; [done|].
  change (api_messages r s') with (log_of r s').
  rewrite Hlog. split; [done|]. by rewrite slice_last_length, Hlen.
Qed.

Lemma text_log_is_the_last_100_sent_witness :
  ∃ s',
    run alice_joined (texts 120) = Some s'
    ∧ length (appended alice_joined (texts 120)) = length (texts 120)
    ∧ api_messages "global" s'
      = JsArray.slice_last 100 (appended alice_joined (texts 120))
    ∧ length (api_messages "global" s') = Nat.min 100 (length (texts 120)).
Proof.
  apply (text_log_is_the_last_100_sent "global" alice_joined (texts 120)).
  - vm_compute. reflexivity.
  - apply Forall_forall. intros i Hi. unfold texts in Hi.
    apply list_elem_of_fmap in Hi as (k & -> & _).
    split; [reflexivity|]. eexists. vm_compute. reflexivity.
Defined.

(** ** Message ids *)

Lemma log_of_insert_eq (r : string) (log : list Message) (s : State) :
  log_of r (set_messages (insert r log) s) = log.
Proof. unfold log_of. simpl. by rewrite lookup_insert_eq. Qed.

Lemma log_of_messages (r : string) (s s' : State) :
  messages s' !! r = messages s !! r → log_of r s' = log_of r s.
Proof. intros H. unfold log_of. by rewrite H. Qed.

(** One handler changes the ids of one log at most, by dropping from the
    front and adding the value read from [uuidv4()] at the end. *)
Lemma handle_ids (sid : string) (env : Env) (ev : Event) (s s' : State)
    (acts : list Action) :
  handle sid env ev s = Some (s', acts) →
  ∃ r0,
    (∀ r, r ≠ r0 → ids_of r s' = ids_of r s)
    ∧ ids_of r0 s' `sublist_of` (ids_of r0 s ++ [uuid env]).
Proof.
  intros Hrun. unfold ids_of.
  destruct (handle_messages_change sid env ev s s' acts Hrun)
    as [Hsame| u msg room _ _ r0 pushed Hms | u fd room _ _ r0 Hms
       | u mid k room log0 i m _ _ Hlog0 Hfind _ Hms | u name p _ _ Hms].
  - exists "". split.
    + intros r _. by rewrite (log_of_messages r s s') by by rewrite Hsame.
    + rewrite (log_of_messages "" s s') by by rewrite Hsame.
      by apply sublist_inserts_r.
  - exists r0. split.
    + intros r Hne. rewrite (log_of_messages r s s'); [done|].
      by rewrite Hms, lookup_insert_ne.
    + unfold log_of at 1. rewrite Hms, lookup_insert_eq. simpl.
      assert (m_id <$> pushed = (m_id <$> log_of r0 s) ++ [uuid env]) as <-.
      { unfold pushed, JsArray.push. by rewrite fmap_app. }
      case_decide; [|done]. rewrite shift_as_drop, fmap_drop.
      apply sublist_drop.
  - exists r0. split.
    + intros r Hne. rewrite (log_of_messages r s s'); [done|].
      by rewrite Hms, lookup_insert_ne.
    + unfold log_of at 1. rewrite Hms, lookup_insert_eq. simpl.
      unfold JsArray.push. by rewrite fmap_app.
  - exists (room_or_default room). split.
    + intros r Hne. rewrite (log_of_messages r s s'); [done|].
      by rewrite Hms, lookup_insert_ne.
    + unfold log_of. rewrite Hms, lookup_insert_eq, Hlog0. simpl.
      apply list_find_Some in Hfind as (Hi & _ & _).
      rewrite list_fmap_insert. simpl.
      rewrite list_insert_id by by rewrite list_lookup_fmap, Hi.
      by apply sublist_inserts_r.
  - exists (uuid env). split.
    + intros r Hne. rewrite (log_of_messages r s s'); [done|].
      by rewrite Hms, lookup_insert_ne.
    + unfold log_of at 1. rewrite Hms, lookup_insert_eq. simpl.
      apply sublist_nil_l.
Qed.

Lemma init_ids_fresh (t0 : string) : ids_fresh [] (init t0).
Proof.
  assert (∀ r, ids_of r (init t0) = []) as Hnil.
  { intros r. unfold ids_of, log_of. simpl.
    destruct (decide (r = DEFAULT_ROOM)) as [->|Hne].
    - by rewrite lookup_singleton_eq.
    - by rewrite lookup_singleton_ne. }
  split; [|split].
  - intros r x. rewrite Hnil. by intros ?%elem_of_nil.
  - intros r. rewrite Hnil. apply NoDup_nil_2.
  - intros r1 r2 x. rewrite Hnil. by intros ?%elem_of_nil.
Qed.

Lemma handle_preserves_ids_fresh (sid : string) (env : Env) (ev : Event)
    (s s' : State) (acts : list Action) (used : list string) :
  ids_fresh used s → uuid env ∉ used →
  handle sid env ev s = Some (s', acts) →
  ids_fresh (uuid env :: used) s'.
Proof.
  intros (Hused & Hnd & Hone) Hfresh Hrun.
  destruct (handle_ids sid env ev s s' acts Hrun) as (r0 & Hother & Hr0).
  assert (uuid env ∉ ids_of r0 s) as Hnew
    by (intros Hin; apply Hfresh; by eapply Hused).
  assert (∀ r x, x ∈ ids_of r s' →
            x ∈ ids_of r s ∨ (r = r0 ∧ x = uuid env)) as Hfrom.
  { intros r x Hx. destruct (decide (r = r0)) as [->|Hne].
    - apply (elem_of_sublist _ _ _ Hx) in Hr0.
      apply elem_of_app in Hr0 as [?| ->%list_elem_of_singleton];
        [by left|by right].
    - left. by rewrite <- (Hother r Hne). }
  split; [|split].
  - intros r x [Hx|[_ ->]]%Hfrom; [right; by eapply Hused|by left].
  - intros r. destruct (decide (r = r0)) as [->|Hne].
    + eapply sublist_NoDup; [|exact Hr0].
      apply NoDup_app. split; [done|]. split; [|apply NoDup_singleton].
      intros x Hx ->%list_elem_of_singleton. done.
    + by rewrite (Hother r Hne).
  - intros r1 r2 x [H1|[-> ->]]%Hfrom [H2|[-> E2]]%Hfrom.
    + by eapply Hone.
    + subst x. exfalso. apply Hfresh. by eapply Hused.
    + exfalso. apply Hfresh. by eapply Hused.
    + done.
Qed.

Lemma run_ids_fresh (tr : list Input) :
  ∀ (s s' : State) (used : list string),
    ids_fresh used s →
    NoDup (uuids tr) → (∀ x, x ∈ uuids tr → x ∉ used) →
    run s tr = Some s' →
    ∃ used', ids_fresh used' s'.
Proof.
  induction tr as [|i tr IH]; intros s s' used Hinv Hnd Hnew Hrun;
    simpl in Hrun.
  - injection Hrun as <-. by exists used.
  - unfold step in Hrun.
    destruct (handle (in_sid i) (in_env i) (in_event i) s) as [[s1 acts]|]
      eqn:Hh; simpl in Hrun; [|discriminate].
    unfold uuids in Hnd, Hnew. csimpl in Hnd. csimpl in Hnew.
    apply NoDup_cons in Hnd as [Hi Hnd].
    eapply (IH s1 s' (uuid (in_env i) :: used)); [|done| |done].
    + eapply handle_preserves_ids_fresh; [done| |done].
      apply Hnew. by left.
    + intros x Hx [->|Hu]%elem_of_cons; [done|].
      apply (Hnew x); [by right|done].
Qed.

(** X12. Message ids are as unique as the values of [uuidv4()]: after any
    run from the start in which [uuidv4()] never returned the same value
    twice, no log holds two messages with the same id and no id occurs in
    the logs of two rooms; so the lookup by id in [add_reaction] has one
    candidate at most. *)
Theorem message_ids_are_unique (t0 : string) (tr : list Input) (s : State) :
  NoDup (uuids tr) →
  run (init t0) tr = Some s →
  (∀ r, NoDup (m_id <$> api_messages r s))
  ∧ (∀ r1 r2 m1 m2,
       m1 ∈ api_messages r1 s → m2 ∈ api_messages r2 s →
       m_id m1 = m_id m2 → r1 = r2).
Proof.
  intros Hnd Hrun.
  destruct (run_ids_fresh tr (init t0) s [] (init_ids_fresh t0) Hnd)
    as (used & _ & Hone & Htwo); [|done|].
  { intros x _. apply not_elem_of_nil. }
  split; [exact Hone|].
  intros r1 r2 m1 m2 H1 H2 Heq. apply (Htwo r1 r2 (m_id m1)).
  - apply list_elem_of_fmap. by exists m1.
  - rewrite Heq. apply list_elem_of_fmap. by exists m2.
Qed.

Lemma message_ids_are_unique_witness :
  (∀ r, NoDup (m_id <$> api_messages r two_users))
  ∧ (∀ r1 r2 m1 m2,
       m1 ∈ api_messages r1 two_users → m2 ∈ api_messages r2 two_users →
       m_id m1 = m_id m2 → r1 = r2).
Proof.
  apply (message_ids_are_unique "t-0" two_users_trace two_users).
  - apply (bool_decide_unpack _). vm_compute. exact I.
  - vm_compute. reflexivity.
Defined.

(** ** What a stored message is *)

Lemma envelope_with_reactions (rs : gmap string (list string)) (m : Message) :
  envelope (with_reactions rs m) = envelope m.
Proof. done. Qed.

(** After one handler, a message of the log of [r] is a message of that log
    before with the same envelope, or the message the handler appended to
    [r]. *)
Lemma handle_log_origin (sid : string) (env : Env) (ev : Event) (s s' : State)
    (acts : list Action) (r : string) (log' : list Message) (m' : Message) :
  handle sid env ev s = Some (s', acts) →
  messages s' !! r = Some log' → m' ∈ log' →
  (∃ log m, messages s !! r = Some log ∧ m ∈ log ∧ envelope m' = envelope m)
  ∨ (∃ u, is_append_to r ev = true
          ∧ appended_message u (mkInput sid env ev) = Some m'
          ∧ envelope m' = m').
Proof.
  intros Hrun Hr Hin.
  destruct (handle_messages_change sid env ev s s' acts Hrun)
    as [Hsame| u msg room _ -> r0 pushed Hms | u fd room _ -> r0 Hms
       | u mid k room log0 i m _ _ Hlog0 Hfind _ Hms | u name p _ _ Hms].
  - rewrite Hsame in Hr. left. by exists log', m'.
  - rewrite Hms in Hr. destruct (decide (r = r0)) as [->|Hne].
    + rewrite lookup_insert_eq in Hr. injection Hr as <-.
      assert (m' ∈ pushed) as Hp
        by (case_decide; [by apply elem_of_shift|done]).
      apply elem_of_app in Hp as [Hold|Hnew%list_elem_of_singleton].
      * apply elem_of_log_of in Hold as (log & ? & ?). left. by exists log, m'.
      * right. exists u. subst m'. simpl.
        split; [by apply bool_decide_eq_true|done].
    + rewrite lookup_insert_ne in Hr by done. left. by exists log', m'.
  - rewrite Hms in Hr. destruct (decide (r = r0)) as [->|Hne].
    + rewrite lookup_insert_eq in Hr. injection Hr as <-.
      apply elem_of_app in Hin as [Hold|Hnew%list_elem_of_singleton].
      * apply elem_of_log_of in Hold as (log & ? & ?). left. by exists log, m'.
      * right. exists u. subst m'. simpl.
        split; [by apply bool_decide_eq_true|done].
    + rewrite lookup_insert_ne in Hr by done. left. by exists log', m'.
  - rewrite Hms in Hr.
    destruct (decide (r = room_or_default room)) as [->|Hne].
    + rewrite lookup_insert_eq in Hr. injection Hr as <-.
      apply list_find_Some in Hfind as (Hi%list_elem_of_lookup_2 & _ & _).
      apply elem_of_list_insert_inv in Hin as [->|Hold]; left.
      * by exists log0, m.
      * by exists log0, m'.
    + rewrite lookup_insert_ne in Hr by done. left. by exists log', m'.
  - rewrite Hms in Hr. destruct (decide (r = uuid env)) as [->|Hne].
    + rewrite lookup_insert_eq in Hr. injection Hr as <-.
      by apply elem_of_nil in Hin.
    + rewrite lookup_insert_ne in Hr by done. left. by exists log', m'.
Qed.

Lemma envelopes_are_immutable_aux (tr : list Input) :
  ∀ (s s' : State) (r : string) (log' : list Message) (m' : Message),
    run s tr = Some s' →
    messages s' !! r = Some log' → m' ∈ log' →
    (∃ log m, messages s !! r = Some log ∧ m ∈ log
              ∧ envelope m' = envelope m)
    ∨ (∃ i u, i ∈ tr ∧ is_append_to r (in_event i) = true
              ∧ appended_message u i = Some (envelope m')).
Proof.
  induction tr as [|[sid env ev] tr IH]; intros s s' r log' m' Hrun Hr Hin;
    simpl in Hrun.
  - injection Hrun as <-. left. by exists log', m'.
  - unfold step in Hrun. cbn [in_sid in_env in_event] in Hrun.
    destruct (handle sid env ev s) as [[s1 acts]|] eqn:Hh; simpl in Hrun;
      [|discriminate].
    destruct (IH s1 s' r log' m' Hrun Hr Hin)
      as [(log1 & m1 & Hr1 & Hin1 & Henv)|(i & u & Hi & Happ & Hm)].
    + destruct (handle_log_origin sid env ev s s1 acts r log1 m1 Hh Hr1 Hin1)
        as [(log & m & Hlog & Hm & Henv0)|(u & Happ & Hm & Hself)].
      * left. exists log, m. split; [done|]. split; [done|]. congruence.
      * right. exists (mkInput sid env ev), u. split; [by left|].
        split; [done|]. rewrite Henv, Hself. exact Hm.
    + right. exists i, u. split; [by right|done].
Qed.


(** X13. The envelope of a message is immutable. Along any run, from any
    state, a message found in the log of a room is, reactions apart, a
    message that was in that room's log at the start, or the message built
    for a [send_message] or [file_uploaded] of the run addressed to that
    room: id, sender, sender socket, text, file, room, timestamp, type and
    [readBy] never change once stored, and no message moves between
    rooms. *)
Theorem envelopes_are_immutable (tr : list Input) (s s' : State)
    (r : string) (log' : list Message) (m' : Message) :
  run s tr = Some s' →
  messages s' !! r = Some log' → m' ∈ log' →
  (∃ log m, messages s !! r = Some log ∧ m ∈ log
            ∧ envelope m' = envelope m)
  ∨ (∃ i u, i ∈ tr ∧ is_append_to r (in_event i) = true
            ∧ appended_message u i = Some (envelope m')).
Proof. apply envelopes_are_immutable_aux. Qed.

Lemma envelopes_are_immutable_witness :
  let m' := text_messageData "s2" (Sample.env "5")
              (mkUser "s2" "bob" (Some "b.png") "t-2" "global" "online")
              "hello" "global" in
  (∃ log m, messages Sample.start !! "global" = Some log ∧ m ∈ log
            ∧ envelope m' = envelope m)
  ∨ (∃ i u, i ∈ two_users_trace ∧ is_append_to "global" (in_event i) = true
            ∧ appended_message u i = Some (envelope m')).
Proof.
  intros m'.
  apply (envelopes_are_immutable two_users_trace Sample.start two_users
           "global" [m'] m').
  - vm_compute. reflexivity.
  - vm_compute. reflexivity.
  - by left.
Defined.

Lemma appended_message_form (u : User) (i : Input) (r : string)
    (m : Message) :
  is_append_to r (in_event i) = true →
  appended_message u i = Some m →
  m_room m = r ∧ stored_form m ∧ reactions m = ∅
  ∧ senderId m = in_sid i ∧ sender m = username u
  ∧ m_id m = uuid (in_env i) ∧ timestamp m = now (in_env i).
Proof.
  destruct i as [sid env ev]. unfold appended_message. simpl.
  destruct ev; simpl; try discriminate;
    intros Hr%bool_decide_eq_true [= <-]; simpl.
  - split; [done|]. split; [|done]. left. eauto.
  - split; [done|]. split; [|done]. right. eauto.
Qed.

(** X14. In every reachable state, every message of a room's log names that
    room in its [room] field and has one of the two stored forms: a text
    message with a text, no file and an empty [readBy], or a file message
    with a file, no text and no [readBy]. In particular no handler ever
    writes a message's [readBy]. *)
Theorem stored_messages_are_well_formed (s : State) (r : string)
    (m : Message) :
  reachable s →
  m ∈ api_messages r s →
  m_room m = r ∧ stored_form m ∧ default [] (readBy m) = [].
Proof.
  intros (t0 & tr & Hrun) Hin.
  apply elem_of_log_of in Hin as (log & Hr & Hin).
  assert (m_room (envelope m) = r ∧ stored_form (envelope m)) as [Hroom Hform].
  { destruct (envelopes_are_immutable_aux tr (init t0) s r log m Hrun Hr Hin)
      as [(log0 & m0 & Hr0 & Hin0 & _)|(i & u & _ & Happ & Hm)].
    - simpl in Hr0. apply lookup_singleton_Some in Hr0 as [_ <-].
      by apply elem_of_nil in Hin0.
    - destruct (appended_message_form u i r _ Happ Hm) as (? & ? & _).
      done. }
  split; [done|]. split; [done|].
  destruct Hform as [(_ & _ & _ & Hrb)|(_ & _ & _ & Hrb)]; simpl in Hrb;
    by rewrite Hrb.
Qed.

Lemma stored_messages_are_well_formed_witness :
  let m := text_messageData "s2" (Sample.env "5")
             (mkUser "s2" "bob" (Some "b.png") "t-2" "global" "online")
             "hello" "global" in
  m_room m = "global" ∧ stored_form m ∧ default [] (readBy m) = [].
Proof.
  intros m.
  apply (stored_messages_are_well_formed two_users "global" m).
  - apply two_users_reachable.
  - apply list_elem_of_In. vm_compute. by left.
Defined.

(** ** Read receipts only grow *)

Lemma handle_receipts_mono (sid : string) (env : Env) (ev : Event)
    (s s' : State) (acts : list Action) (messageId : string) :
  handle sid env ev s = Some (s', acts) →
  receipts_of messageId s ⊆ receipts_of messageId s'.
Proof.
  intros Hrun.
  destruct (handle_receipts_change sid env ev s s' acts Hrun)
    as [Hsame| u mid room _ _ Hrr]; unfold receipts_of at 2.
  - by rewrite Hsame.
  - rewrite Hrr. destruct (decide (messageId = mid)) as [->|Hne].
    + rewrite lookup_insert_eq. simpl. apply union_subseteq_r.
    + by rewrite lookup_insert_ne.
Qed.

(** X15. A receipt is never taken back: along any run, from any state, the
    set of socket ids recorded as having read a message id only grows. *)
Theorem read_receipts_only_grow (tr : list Input) (s s' : State)
    (messageId : string) :
  run s tr = Some s' →
  receipts_of messageId s ⊆ receipts_of messageId s'.
Proof.
  revert s. induction tr as [|i tr IH]; intros s Hrun; simpl in Hrun.
  - by injection Hrun as <-.
  - unfold step in Hrun.
    destruct (handle (in_sid i) (in_env i) (in_event i) s) as [[s1 acts]|]
      eqn:Hh; simpl in Hrun; [|discriminate].
    etrans; [by eapply handle_receipts_mono|by apply IH].
Qed.

Lemma read_receipts_only_grow_witness :
  receipts_of "id-5" two_users
  ⊆ receipts_of "id-5"
      (Sample.after
         (two_users_trace
          ++ [ Sample.inp "s1" "6" (mark_as_read "id-5" None);
               Sample.inp "s1" "7" disconnect ])).
Proof.
  apply (read_receipts_only_grow
           [ Sample.inp "s1" "6" (mark_as_read "id-5" None);
             Sample.inp "s1" "7" disconnect ] two_users).
  vm_compute. reflexivity.
Defined.

(** ** Which events touch which registry *)

(** X16. Each registry is written by a few events only. Whatever the state
    and the sender: [users] is changed by no event other than [user_join],
    [join_room], [create_room], [update_status] and [disconnect]; [rooms] by
    none other than [create_room]; the message logs by none other than
    [send_message], [file_uploaded], [add_reaction] and [create_room] (so a
    private message is never stored); the typing sets by none other than
    [typing], [create_room] and [disconnect]; the read receipts by none
    other than [mark_as_read]. *)
Theorem registries_are_written_by_few_events (sid : string) (env : Env)
    (ev : Event) (s s' : State) (acts : list Action) :
  handle sid env ev s = Some (s', acts) →
  (may_change_users ev = false → users s' = users s)
  ∧ (may_change_rooms ev = false → rooms s' = rooms s)
  ∧ (may_change_messages ev = false → messages s' = messages s)
  ∧ (may_change_typing ev = false → typingUsers s' = typingUsers s)
  ∧ (may_change_receipts ev = false → readReceipts s' = readReceipts s).
Proof.
  intros Hrun. split; [|split; [|split; [|split]]]; intros Hev.
  - destruct (handle_users_change sid env ev s s' acts Hrun)
      as [->| ? ? -> _ | ? ? _ [->|(? & ? & -> & _)] _ | ? ? _ -> _
         | ? _ -> _]; done.
  - destruct (handle_rooms_change sid env ev s s' acts Hrun)
      as [->| ? ? ? _ -> _]; done.
  - destruct (handle_messages_change sid env ev s s' acts Hrun)
      as [->| ? ? ? _ -> | ? ? ? _ -> | ? ? ? ? ? ? ? _ -> | ? ? ? _ -> _];
      done.
  - destruct (handle_typing_change sid env ev s s' acts Hrun)
      as [->| ? ? ? _ -> | ? ? ? _ -> _ | ? _ -> _]; done.
  - destruct (handle_receipts_change sid env ev s s' acts Hrun)
      as [->| ? ? ? _ -> _]; done.
Qed.

Lemma registries_are_written_by_few_events_witness :
  let ev := mark_as_read "id-5" None in
  let s' := Sample.after (two_users_trace ++ [Sample.inp "s1" "9" ev]) in
  let acts := [ Emit (ToRoom "global") "read_receipt"
                  (P_read_receipt "id-5" "s1" "alice") ] in
  handle "s1" (Sample.env "9") ev two_users = Some (s', acts)
  ∧ (may_change_users ev = false → users s' = users two_users)
  ∧ (may_change_rooms ev = false → rooms s' = rooms two_users)
  ∧ (may_change_messages ev = false → messages s' = messages two_users)
  ∧ (may_change_typing ev = false → typingUsers s' = typingUsers two_users)
  ∧ (may_change_receipts ev = false →
     readReceipts s' = readReceipts two_users).
Proof.
  intros ev s' acts.
  assert (handle "s1" (Sample.env "9") ev two_users = Some (s', acts))
    as Hh by (vm_compute; reflexivity).
  split; [exact Hh|].
  exact (registries_are_written_by_few_events "s1" (Sample.env "9") ev
           two_users s' acts Hh).
Defined.

(** ** Creating a room *)

Lemma JsMap_set_value_elem_of {V : Type} (k : string) (v : V)
    (m : list (string * V)) :
  v ∈ JsMap.values (JsMap.set k v m).
Proof.
  unfold JsMap.values. apply list_elem_of_fmap. exists (k, v).
  split; [done|]. apply JsMap_get_elem_of, JsMap_get_set_eq.
Qed.

Lemma joined_after_app (a1 a2 : list Action) (j : gset string) :
  joined_after (a1 ++ a2) j = joined_after a2 (joined_after a1 j).
Proof. unfold joined_after. apply foldl_app. Qed.

Lemma joined_after_broadcast (roomId event : string) (data : Payload)
    (ex : option string) (j : gset string) (acts : list Action) :
  joined_after (broadcastToRoom roomId event data ex :: acts) j
  = joined_after acts j.
Proof. unfold broadcastToRoom. by repeat case_match. Qed.

(** X17. A created room starts empty and is at once open to everyone. When
    a registered user creates a room, the room (its id the value read from
    [uuidv4()], its creator the user's name, [isPrivate] false unless
    given) is in the room list broadcast to all, its log and typing set are
    empty, and the creator's current room is the new room, though the
    handler makes the creator's socket leave no room. Any other registered
    user who then joins it by id is sent an empty history and has it as
    current room, private or not. *)
Theorem created_room_is_empty_and_joinable (sidA sidB : string)
    (envA envB : Env) (name : string) (p : option bool) (s : State)
    (uA uB : User) :
  getUserInfo sidA s = Some uA →
  getUserInfo sidB s = Some uB →
  sidB ≠ sidA →
  let roomId := uuid envA in
  let room := mkRoom roomId name (Some (username uA)) (now envA)
                (Some (default false p)) in
  ∃ s1 acts1 s2 acts2,
    handle sidA envA (create_room name p) s = Some (s1, acts1)
    ∧ handle sidB envB (join_room roomId) s1 = Some (s2, acts2)
    ∧ room ∈ api_rooms s1
    ∧ acts1 = [ Emit ToAll "room_list" (P_room_list (api_rooms s1));
                SockJoin roomId;
                Emit ToSender "room_created" (P_room room) ]
    ∧ (∀ j, j ⊆ joined_after acts1 j ∧ roomId ∈ joined_after acts1 j)
    ∧ getUserInfo sidA s1 = Some (with_currentRoom roomId uA)
    ∧ api_messages roomId s1 = []
    ∧ typingUsers s1 !! roomId = Some []
    ∧ Emit ToSender "message_history" (P_message_history roomId []) ∈ acts2
    ∧ Emit (ToRoom roomId) "user_joined_room"
        (P_user_room (with_currentRoom roomId uB) roomId) ∈ acts2
    ∧ getUserInfo sidB s2 = Some (with_currentRoom roomId uB)
    ∧ rooms s2 = rooms s1 ∧ messages s2 = messages s1.
Proof.
  intros HA HB Hne roomId room.
  set (s1 := set_users (JsMap.set sidA (with_currentRoom roomId uA))
               (set_typingUsers (insert roomId [])
                  (set_messages (insert roomId [])
                     (set_rooms (JsMap.set roomId room) s)))).
  assert (getUserInfo sidB s1 = Some uB) as HB1.
  { unfold getUserInfo, s1. simpl. by rewrite JsMap_get_set_ne. }
  exists s1. eexists. eexists. eexists.
  split; [simpl; unfold on_create_room; by rewrite HA|].
  split; [simpl; unfold on_join_room; by rewrite HB1|].
  split; [apply JsMap_set_value_elem_of|]. split; [done|].
  split; [intros j; simpl; set_solver|].
  split; [unfold getUserInfo; simpl; apply JsMap_get_set_eq|].
  split; [unfold api_messages; simpl; by rewrite lookup_insert_eq|].
  split; [simpl; by rewrite lookup_insert_eq|].
  split.
  { apply elem_of_app. right. apply elem_of_cons. right.
    apply elem_of_cons. left. f_equal. f_equal.
    unfold message_history. simpl. by rewrite lookup_insert_eq. }
  split.
  { apply elem_of_app. right. do 2 (apply elem_of_cons; right).
    apply elem_of_cons. by left. }
  split; [unfold getUserInfo; simpl; apply JsMap_get_set_eq|done].
Qed.

Lemma created_room_is_empty_and_joinable_witness :
  ∃ s1 acts1 s2 acts2,
    handle "s1" (Sample.env "6") (create_room "ops" (Some true)) two_users
      = Some (s1, acts1)
    ∧ handle "s2" (Sample.env "7") (join_room "id-6") s1 = Some (s2, acts2)
    ∧ mkRoom "id-6" "ops" (Some "alice") "t-6" (Some true) ∈ api_rooms s1
    ∧ acts1 = [ Emit ToAll "room_list" (P_room_list (api_rooms s1));
                SockJoin "id-6";
                Emit ToSender "room_created"
                  (P_room (mkRoom "id-6" "ops" (Some "alice") "t-6"
                             (Some true))) ]
    ∧ (∀ j, j ⊆ joined_after acts1 j ∧ "id-6" ∈ joined_after acts1 j)
    ∧ getUserInfo "s1" s1
      = Some (mkUser "s1" "alice" None "t-1" "id-6" "online")
    ∧ api_messages "id-6" s1 = []
    ∧ typingUsers s1 !! "id-6" = Some []
    ∧ Emit ToSender "message_history" (P_message_history "id-6" []) ∈ acts2
    ∧ Emit (ToRoom "id-6") "user_joined_room"
        (P_user_room (mkUser "s2" "bob" (Some "b.png") "t-2" "id-6" "online")
           "id-6") ∈ acts2
    ∧ getUserInfo "s2" s2
      = Some (mkUser "s2" "bob" (Some "b.png") "t-2" "id-6" "online")
    ∧ rooms s2 = rooms s1 ∧ messages s2 = messages s1.
Proof.
  apply (created_room_is_empty_and_joinable "s1" "s2" (Sample.env "6")
           (Sample.env "7") "ops" (Some true) two_users
           (mkUser "s1" "alice" None "t-1" "id-3" "online")
           (mkUser "s2" "bob" (Some "b.png") "t-2" "global" "online")).
  - vm_compute. reflexivity.
  - vm_compute. reflexivity.
  - done.
Defined.

(** ** Rooms a socket has joined *)

Lemma handle_joined_sender (sid : string) (env : Env) (ev : Event)
    (s s' : State) (acts : list Action) (j : gset string) (u' : User) :
  users_wf s →
  handle sid env ev s = Some (s', acts) →
  (∀ u, getUserInfo sid s = Some u → currentRoom u ∈ j) →
  getUserInfo sid s' = Some u' →
  currentRoom u' ∈ joined_after acts j.
Proof.
  intros [Hnd _] Hrun. revert u'.
  destruct ev; simpl in Hrun; split_handler Hrun; intros u' Hj Hu';
    unfold getUserInfo in *; simpl in Hu'; unfold joined_after; simpl;
    try (solve [apply Hj; congruence
               |destruct (truthy sid); simpl; apply Hj; congruence]).
  - (* user_join *)
    rewrite JsMap_get_set_eq in Hu'. injection Hu' as <-. simpl.
    set_solver.
  - (* join_room *)
    rewrite JsMap_get_set_eq in Hu'. injection Hu' as <-.
    destruct (truthy (currentRoom u)); simpl; set_solver.
  - (* create_room *)
    rewrite JsMap_get_set_eq in Hu'. injection Hu' as <-. simpl.
    set_solver.
  - (* disconnect *)
    by rewrite JsMap_get_delete_eq in Hu'.
  - (* update_status *)
    rewrite JsMap_get_set_eq in Hu'. injection Hu' as <-. simpl.
    apply Hj. congruence.
Qed.

Lemma handle_other_user (sid sid' : string) (env : Env) (ev : Event)
    (s s' : State) (acts : list Action) :
  sid' ≠ sid →
  handle sid env ev s = Some (s', acts) →
  getUserInfo sid' s' = getUserInfo sid' s.
Proof.
  intros Hne Hrun. unfold getUserInfo.
  destruct (handle_users_change sid env ev s s' acts Hrun)
    as [->| ? ? _ -> | ? ? _ _ -> | ? ? _ _ -> | ? _ _ ->];
    by rewrite ?JsMap_get_set_ne, ?JsMap_get_delete_ne.
Qed.

Lemma run_joined_in_current_room (tr : list Input) :
  ∀ (s s' : State) (js js' : gmap string (gset string)),
    users_wf s → in_current_room s js →
    run_joined s js tr = Some (s', js') →
    in_current_room s' js'.
Proof.
  induction tr as [|[sid env ev] tr IH]; intros s s' js js' Hwf Hinv Hrun;
    simpl in Hrun.
  - by injection Hrun as <- <-.
  - destruct (handle sid env ev s) as [[s1 acts]|] eqn:Hh; [|discriminate].
    eapply IH; [|
      |exact Hrun].
    + by eapply handle_preserves_users_wf.
    + intros sid' u' Hu'. destruct (decide (sid' = sid)) as [->|Hne].
      * rewrite lookup_insert_eq. simpl.
        eapply handle_joined_sender; [done|done| |done].
        intros u Hu. by apply Hinv.
      * rewrite lookup_insert_ne by done. apply Hinv.
        by rewrite <- (handle_other_user sid sid' env ev s s1 acts).
Qed.

(** X18. A registered socket is always in the room recorded as its current
    room: after any run from the start, with no socket in any room
    initially, the [socket.join] and [socket.leave] calls made by the
    handlers have left every registered socket joined to its
    [currentRoom], so the broadcasts to that room are addressed to it. *)
Theorem registered_socket_is_in_its_current_room (t0 : string)
    (tr : list Input) (s : State) (js : gmap string (gset string))
    (sid : string) (u : User) :
  run_joined (init t0) ∅ tr = Some (s, js) →
  getUserInfo sid s = Some u →
  currentRoom u ∈ default ∅ (js !! sid).
Proof.
  intros Hrun Hu.
  eapply (run_joined_in_current_room tr (init t0) s ∅ js);
    [apply init_users_wf| |done|done].
  intros sid' u' Hu'. discriminate Hu'.
Qed.

Lemma registered_socket_is_in_its_current_room_witness :
  ∃ js,
    run_joined Sample.start ∅
      (two_users_trace ++ [Sample.inp "s1" "6" (join_room "global")])
    = Some (Sample.after
              (two_users_trace ++ [Sample.inp "s1" "6" (join_room "global")]),
            js)
    ∧ "global" ∈ default ∅ (js !! "s1").
Proof.
  eexists. split; [vm_compute; reflexivity|].
  eapply (registered_socket_is_in_its_current_room "t-0"
            (two_users_trace ++ [Sample.inp "s1" "6" (join_room "global")])
            _ _ "s1" (mkUser "s1" "alice" None "t-1" "global" "online")).
  - vm_compute. reflexivity.
  - vm_compute. reflexivity.
Defined.

(** ** The client's copy of the messages *)

Section client.
Context {R : Type}.
Implicit Types (prev : list (Client.Msg R)) (msg : Client.Msg R).

Lemma strict_eq_refl (a : Client.MsgId) : Client.strict_eq a a = true.
Proof. destruct a; simpl; by apply bool_decide_eq_true. Qed.

Lemma strict_eq_true (a b : Client.MsgId) :
  Client.strict_eq a b = true ↔ a = b.
Proof.
  destruct a, b; simpl; rewrite ?bool_decide_eq_true; split; try done;
    congruence.
Qed.

(** X19. The client's record of who has read a message accumulates without
    repetition. Applying a read receipt keeps the array's length and every
    message's id and other fields, leaves the messages with another id
    (among them all system messages) as they are, puts the reader's name in
    the [readBy] of every message with the receipt's id, adding it at the
    end only where it was missing, and applying the same receipt again
    changes nothing. *)
Theorem client_read_receipt_is_idempotent (messageId uname : string) prev :
  let next := Client.onReadReceipt messageId uname prev in
  length next = length prev
  ∧ Client.c_id <$> next = Client.c_id <$> prev
  ∧ Client.c_rest <$> next = Client.c_rest <$> prev
  ∧ (∀ i msg, prev !! i = Some msg →
       Client.c_id msg ≠ Client.IdStr messageId → next !! i = Some msg)
  ∧ (∀ i msg, prev !! i = Some msg →
       Client.c_id msg = Client.IdStr messageId →
       ∃ msg', next !! i = Some msg'
         ∧ uname ∈ default [] (Client.c_readBy msg')
         ∧ (∀ x, x ∈ default [] (Client.c_readBy msg')
                 ↔ x = uname ∨ x ∈ default [] (Client.c_readBy msg))
         ∧ (NoDup (default [] (Client.c_readBy msg)) →
            NoDup (default [] (Client.c_readBy msg'))))
  ∧ Client.onReadReceipt messageId uname next = next.
Proof.
  intros next. unfold next, Client.onReadReceipt.
  split; [by rewrite length_fmap|].
  split.
  { rewrite <- list_fmap_compose. apply list_fmap_ext. intros i msg _. simpl.
    by repeat case_match. }
  split.
  { rewrite <- list_fmap_compose. apply list_fmap_ext. intros i msg _. simpl.
    by repeat case_match. }
  split.
  { intros i msg Hi Hne. rewrite list_lookup_fmap, Hi. simpl.
    destruct (Client.strict_eq _ _) eqn:Heq; [|done].
    by apply strict_eq_true in Heq. }
  split.
  { intros i msg Hi Heq. rewrite list_lookup_fmap, Hi. simpl.
    rewrite Heq, strict_eq_refl. case_bool_decide as Hin.
    - exists msg. split; [done|]. split; [done|]. split; [|done].
      intros x. split; [by right|]. by intros [->|?].
    - eexists. split; [done|]. simpl.
      split; [apply elem_of_app; right; by left|].
      split.
      + intros x. rewrite elem_of_app, list_elem_of_singleton. tauto.
      + intros Hnd. apply NoDup_app. split; [done|].
        split; [|apply NoDup_singleton].
        intros x Hx ->%list_elem_of_singleton. done. }
  rewrite <- list_fmap_compose. apply list_fmap_ext. intros i msg _. simpl.
  destruct (Client.strict_eq (Client.c_id msg) _) eqn:Heq.
  - case_bool_decide as Hin; simpl; rewrite Heq.
    + by rewrite bool_decide_eq_true_2.
    + rewrite bool_decide_eq_true_2; [done|].
      apply elem_of_app. right. by left.
  - by rewrite Heq.
Qed.

(** X20. An updated message replaces the client's copy whole. Applying
    [message_updated] keeps the array's length, leaves the messages with
    another id as they are, makes every message with the updated message's
    id equal to it, and is idempotent; an update for a message the client
    does not hold changes nothing. As the replacement takes the [readBy] of
    the message sent, the readers the client had recorded for it by read
    receipts are replaced as well. *)
Theorem client_message_update_replaces_whole (updated : Client.Msg R)
    (reader : string) (messageId : string) prev :
  let next := Client.onMessageUpdated updated prev in
  length next = length prev
  ∧ (∀ i msg, prev !! i = Some msg →
       Client.c_id msg ≠ Client.c_id updated → next !! i = Some msg)
  ∧ (∀ i msg, prev !! i = Some msg →
       Client.c_id msg = Client.c_id updated → next !! i = Some updated)
  ∧ Client.onMessageUpdated updated next = next
  ∧ ((∀ msg, msg ∈ prev → Client.c_id msg ≠ Client.c_id updated) →
     next = prev)
  ∧ (Client.c_id updated = Client.IdStr messageId →
     ∀ msg, msg ∈ Client.onMessageUpdated updated
                    (Client.onReadReceipt messageId reader prev) →
            Client.c_id msg = Client.IdStr messageId →
            Client.c_readBy msg = Client.c_readBy updated).
Proof.
  intros next. unfold next, Client.onMessageUpdated.
  split; [by rewrite length_fmap|].
  split.
  { intros i msg Hi Hne. rewrite list_lookup_fmap, Hi. simpl.
    destruct (Client.strict_eq _ _) eqn:Heq; [|done].
    by apply strict_eq_true in Heq. }
  split.
  { intros i msg Hi Heq. rewrite list_lookup_fmap, Hi. simpl.
    by rewrite Heq, strict_eq_refl. }
  split.
  { rewrite <- list_fmap_compose. apply list_fmap_ext. intros i msg _. simpl.
    destruct (Client.strict_eq (Client.c_id msg) _) eqn:Heq.
    - by rewrite strict_eq_refl.
    - by rewrite Heq. }
  split.
  { intros Hnone. rewrite <- (list_fmap_id prev) at 2.
    apply list_fmap_ext. intros i msg Hi%list_elem_of_lookup_2. simpl.
    destruct (Client.strict_eq _ _) eqn:Heq; [|done].
    apply strict_eq_true in Heq. by destruct (Hnone msg Hi). }
  intros Hid msg (msg0 & -> & _)%list_elem_of_fmap Hmsg.
  destruct (Client.strict_eq (Client.c_id msg0) _) eqn:Heq; [done|].
  rewrite Hid in Heq. rewrite Hmsg in Heq. by rewrite strict_eq_refl in Heq.
Qed.
End client.

Lemma client_read_receipt_on_sample :
  Client.onReadReceipt "id-2" "carol" Client.sample
  = [ Client.mkMsg (Client.IdStr "id-2") (Some ["bob"; "carol"]) "hi";
      Client.mkMsg (Client.IdNum 1700000000000) None "alice joined the chat" ]
  ∧ Client.onReadReceipt "id-2" "bob" Client.sample = Client.sample.
Proof. split; vm_compute; reflexivity. Qed.

(** ** Switching rooms *)

(** X21. Switching rooms tells the new room only. For a registered user,
    [join_room] with any room id, known or not, rewrites the user's entry
    in place with that id as current room and changes nothing else
    (no room and no log is made for an unknown id); the socket leaves the
    previous room when that is not the empty string and joins the new one;
    the history of the new room goes to the sender, empty when the id has no
    log; and every emit is addressed to the sender or to the new room,
    never to the room left. *)
Theorem join_room_notifies_the_new_room_only (sid : string) (env : Env)
    (s : State) (u : User) (roomId : string) :
  getUserInfo sid s = Some u →
  ∃ s' acts,
    handle sid env (join_room roomId) s = Some (s', acts)
    ∧ getUserInfo sid s' = Some (with_currentRoom roomId u)
    ∧ (∀ sid', sid' ≠ sid → getUserInfo sid' s' = getUserInfo sid' s)
    ∧ (users s').*1 = (users s).*1
    ∧ rooms s' = rooms s ∧ messages s' = messages s
    ∧ typingUsers s' = typingUsers s ∧ readReceipts s' = readReceipts s
    ∧ (∀ j, roomId ∈ joined_after acts j
            ∧ (currentRoom u ≠ "" → currentRoom u ≠ roomId →
               currentRoom u ∉ joined_after acts j))
    ∧ Emit ToSender "message_history"
        (P_message_history roomId
           (JsArray.slice_last 50 (api_messages roomId s))) ∈ acts
    ∧ (messages s !! roomId = None →
       Emit ToSender "message_history" (P_message_history roomId []) ∈ acts)
    ∧ (∀ tgt event p, Emit tgt event p ∈ acts →
         tgt = ToSender ∨ tgt = ToRoom roomId).
Proof.
  intros Hu. simpl. unfold on_join_room. rewrite Hu.
  eexists _, _. split; [reflexivity|]. unfold getUserInfo in *. simpl.
  split; [apply JsMap_get_set_eq|].
  split; [intros sid' Hne; by apply JsMap_get_set_ne|].
  split; [apply JsMap_set_keys_present; rewrite Hu; eauto|].
  do 4 (split; [done|]).
  split.
  { intros j. unfold joined_after, truthy. split.
    - destruct (bool_decide (currentRoom u = "")); simpl; set_solver.
    - intros Hne1 Hne2. rewrite bool_decide_eq_false_2 by done. simpl.
      rewrite elem_of_union, elem_of_difference, !elem_of_singleton.
      intros [[_ Hc]|Hc]; congruence. }
  split.
  { apply elem_of_app. right. apply elem_of_cons. right.
    apply elem_of_cons. by left. }
  split.
  { intros Hnone. apply elem_of_app. right. apply elem_of_cons. right.
    apply elem_of_cons. left. unfold message_history. simpl.
    by rewrite Hnone. }
  intros tgt event p [Hin|Hin]%elem_of_app.
  - destruct (truthy (currentRoom u)).
    + apply list_elem_of_singleton in Hin. discriminate Hin.
    + by apply elem_of_nil in Hin.
  - apply elem_of_cons in Hin as [Hin|Hin]; [discriminate Hin|].
    apply elem_of_cons in Hin as [Hin|Hin]; [injection Hin as -> _ _; by left|].
    apply list_elem_of_singleton in Hin. injection Hin as -> _ _. by right.
Qed.

Lemma join_room_notifies_the_new_room_only_witness :
  ∃ s' acts,
    handle "s2" (Sample.env "9") (join_room "nowhere") two_users
      = Some (s', acts)
    ∧ getUserInfo "s2" s'
      = Some (with_currentRoom "nowhere"
                (mkUser "s2" "bob" (Some "b.png") "t-2" "global" "online"))
    ∧ (∀ sid', sid' ≠ "s2" → getUserInfo sid' s' = getUserInfo sid' two_users)
    ∧ (users s').*1 = (users two_users).*1
    ∧ rooms s' = rooms two_users ∧ messages s' = messages two_users
    ∧ typingUsers s' = typingUsers two_users
    ∧ readReceipts s' = readReceipts two_users
    ∧ (∀ j, "nowhere" ∈ joined_after acts j
            ∧ ("global" ≠ "" → "global" ≠ "nowhere" →
               "global" ∉ joined_after acts j))
    ∧ Emit ToSender "message_history"
        (P_message_history "nowhere"
           (JsArray.slice_last 50 (api_messages "nowhere" two_users))) ∈ acts
    ∧ (messages two_users !! "nowhere" = None →
       Emit ToSender "message_history" (P_message_history "nowhere" [])
       ∈ acts)
    ∧ (∀ tgt event p, Emit tgt event p ∈ acts →
         tgt = ToSender ∨ tgt = ToRoom "nowhere").
Proof.
  apply (join_room_notifies_the_new_room_only "s2" (Sample.env "9") two_users
           (mkUser "s2" "bob" (Some "b.png") "t-2" "global" "online")
           "nowhere").
  vm_compute. reflexivity.
Defined.

(** ** First use *)

(** X22. A log is made on first use, for any room name. When a registered
    user sends a text or a file to a room that has no log, known to [rooms]
    or not, the handler makes the log: afterwards [/api/messages] for that
    room answers with that one message, the other logs and all other
    registries are as before (in particular no room is added), and the
    message is broadcast to the room named. *)
Theorem append_makes_the_log_on_first_use (sid : string) (env : Env)
    (s : State) (u : User) (i : Input) (r : string) (m : Message) :
  in_sid i = sid → in_env i = env →
  getUserInfo sid s = Some u →
  is_append_to r (in_event i) = true →
  appended_message u i = Some m →
  messages s !! r = None →
  ∃ s',
    handle sid env (in_event i) s
    = Some (s', [Emit (ToRoom r) "receive_message" (P_message m)])
    ∧ api_messages r s' = [m]
    ∧ (∀ r', r' ≠ r → messages s' !! r' = messages s !! r')
    ∧ users s' = users s ∧ rooms s' = rooms s
    ∧ typingUsers s' = typingUsers s ∧ readReceipts s' = readReceipts s.
Proof.
  destruct i as [sid0 env0 ev]. simpl. intros -> -> Hu Happ Hm Hnone.
  unfold appended_message in Hm. simpl in Hm.
  destruct ev; simpl in Happ; try discriminate;
    apply bool_decide_eq_true in Happ; subst r; injection Hm as <-; simpl.
  - unfold on_send_message. rewrite Hu, Hnone. simpl.
    eexists. split; [reflexivity|]. unfold api_messages. simpl.
    split; [by rewrite lookup_insert_eq|].
    split; [intros r' Hne; by rewrite lookup_insert_ne|done].
  - unfold on_file_uploaded. rewrite Hu, Hnone. simpl.
    eexists. split; [reflexivity|]. unfold api_messages. simpl.
    split; [by rewrite lookup_insert_eq|].
    split; [intros r' Hne; by rewrite lookup_insert_ne|done].
Qed.

Lemma append_makes_the_log_on_first_use_witness :
  ∃ s',
    handle "s2" (Sample.env "9") (file_uploaded Sample.pic (Some "attic"))
      two_users
    = Some (s', [ Emit (ToRoom "attic") "receive_message"
                    (P_message
                       (file_messageData "s2" (Sample.env "9")
                          (mkUser "s2" "bob" (Some "b.png") "t-2" "global"
                             "online") Sample.pic "attic")) ])
    ∧ api_messages "attic" s'
      = [ file_messageData "s2" (Sample.env "9")
            (mkUser "s2" "bob" (Some "b.png") "t-2" "global" "online")
            Sample.pic "attic" ]
    ∧ (∀ r', r' ≠ "attic" → messages s' !! r' = messages two_users !! r')
    ∧ users s' = users two_users ∧ rooms s' = rooms two_users
    ∧ typingUsers s' = typingUsers two_users
    ∧ readReceipts s' = readReceipts two_users.
Proof.
  apply (append_makes_the_log_on_first_use "s2" (Sample.env "9") two_users
           (mkUser "s2" "bob" (Some "b.png") "t-2" "global" "online")
           (Sample.inp "s2" "9" (file_uploaded Sample.pic (Some "attic")))
           "attic").
  - reflexivity.
  - reflexivity.
  - vm_compute. reflexivity.
  - reflexivity.
  - reflexivity.
  - vm_compute. reflexivity.
Defined.

(** X23. A first [user_join] appends: for a socket that is not registered,
    the new identity is put at the end of the user list, after the users
    who were there, who are as before; the list broadcast to all is that
    longer list; and the joiner is sent the room list and the last 50
    messages of the default room. *)
Theorem first_join_appends_to_the_user_list (sid : string) (env : Env)
    (name : string) (av : option string) (s : State) :
  getUserInfo sid s = None →
  let fresh := mkUser sid name av (now env) DEFAULT_ROOM "online" in
  ∃ s',
    handle sid env (user_join name av) s
    = Some (s',
        [ SockJoin DEFAULT_ROOM;
          Emit ToAll "user_list" (P_user_list (api_users s ++ [fresh]));
          Emit (ToRoom DEFAULT_ROOM) "user_joined"
            (P_user_room fresh DEFAULT_ROOM);
          Emit ToSender "room_list" (P_room_list (api_rooms s));
          Emit ToSender "message_history"
            (P_message_history DEFAULT_ROOM
               (JsArray.slice_last 50 (api_messages DEFAULT_ROOM s))) ])
    ∧ api_users s' = api_users s ++ [fresh]
    ∧ getUserInfo sid s' = Some fresh
    ∧ (∀ sid', sid' ≠ sid → getUserInfo sid' s' = getUserInfo sid' s)
    ∧ h_users (health env s') = h_users (health env s) + 1.
Proof.
  intros Hnone fresh.
  assert (JsMap.set sid fresh (users s) = users s ++ [(sid, fresh)]) as Hset
    by by apply JsMap_set_absent.
  exists (set_users (JsMap.set sid fresh) s).
  unfold api_users, api_rooms, api_messages, JsMap.values, getUserInfo.
  split.
  { change (handle sid env (user_join name av) s)
      with (on_user_join sid env name av s).
    unfold on_user_join, message_history, broadcastToRoom.
    fold fresh. cbn [set_users users rooms messages].
    unfold JsMap.values. by rewrite Hset, fmap_app. }
  cbn [set_users users health h_users].
  split; [by rewrite Hset, fmap_app|].
  split; [apply JsMap_get_set_eq|].
  split; [intros sid' Hne; by apply JsMap_get_set_ne|].
  rewrite Hset, length_app. simpl. lia.
Qed.

Lemma first_join_appends_to_the_user_list_witness :
  ∃ s',
    handle "s3" (Sample.env "9") (user_join "carol" None) two_users
    = Some (s',
        [ SockJoin "global";
          Emit ToAll "user_list"
            (P_user_list
               (api_users two_users
                ++ [mkUser "s3" "carol" None "t-9" "global" "online"]));
          Emit (ToRoom "global") "user_joined"
            (P_user_room (mkUser "s3" "carol" None "t-9" "global" "online")
               "global");
          Emit ToSender "room_list" (P_room_list (api_rooms two_users));
          Emit ToSender "message_history"
            (P_message_history "global"
               (JsArray.slice_last 50 (api_messages "global" two_users))) ])
    ∧ api_users s'
      = api_users two_users
        ++ [mkUser "s3" "carol" None "t-9" "global" "online"]
    ∧ getUserInfo "s3" s'
      = Some (mkUser "s3" "carol" None "t-9" "global" "online")
    ∧ (∀ sid', sid' ≠ "s3" → getUserInfo sid' s' = getUserInfo sid' two_users)
    ∧ h_users (health (Sample.env "9") s')
      = h_users (health (Sample.env "9") two_users) + 1.
Proof.
  apply (first_join_appends_to_the_user_list "s3" (Sample.env "9") "carol"
           None two_users).
  vm_compute. reflexivity.
Defined.

(** ** One reaction at a time *)

Lemma list_find_insert_other {A : Type} (P : A → Prop)
    `{!∀ x, Decision (P x)} (l : list A) (i : nat) (x y : A) :
  l !! i = Some x → ¬ P x → ¬ P y →
  list_find P (<[i := y]> l) = list_find P l.
Proof.
  revert i. induction l as [|z l IH]; intros i Hi Hx Hy; [done|].
  destruct i as [|i]; simpl in *.
  - injection Hi as ->. by rewrite !decide_False.
  - destruct (decide (P z)); [done|]. by rewrite (IH i).
Qed.

(** X24. A reaction toggle touches one reactor array of one message. In a
    state where a registered user's [add_reaction] finds its message and
    the reaction is a key of its own, the handler broadcasts the rewritten
    message to the room as [message_updated]; the reactors of that
    message's other reactions, the reactors of every message with another
    id, the length of every log and every registry other than the logs are
    as before. *)
Theorem reaction_toggle_touches_one_array (sid : string) (env : Env)
    (s : State) (u : User) (messageId k : string) (room : option string)
    (m : Message) :
  getUserInfo sid s = Some u →
  find_message (room_or_default room) messageId s = Some m →
  inherited_key k = false →
  let r := room_or_default room in
  ∃ s' m',
    handle sid env (add_reaction messageId k room) s
    = Some (s', [Emit (ToRoom r) "message_updated" (P_message m')])
    ∧ find_message r messageId s' = Some m'
    ∧ envelope m' = envelope m
    ∧ (∀ k', k' ≠ k → reactions m' !! k' = reactions m !! k')
    ∧ (∀ r' id' k', id' ≠ messageId →
         reactors_of r' id' k' s' = reactors_of r' id' k' s)
    ∧ (∀ r', length (api_messages r' s') = length (api_messages r' s))
    ∧ users s' = users s ∧ rooms s' = rooms s
    ∧ typingUsers s' = typingUsers s ∧ readReceipts s' = readReceipts s.
Proof.
  intros Hu Hfind Hown r.
  unfold find_message, log_of in Hfind. fold r in Hfind.
  destruct (messages s !! r) as [log|] eqn:Hlog; simpl in Hfind;
    [|discriminate].
  destruct (list_find _ log) as [[i m0]|] eqn:Hlf; simpl in Hfind;
    [|discriminate].
  injection Hfind as ->.
  set (m1 := with_reactions
               (<[k := toggle (username u) (default [] (reactions m !! k))]>
                  (reactions m)) m).
  pose proof Hlf as (Hi & Hid & _)%list_find_Some.
  exists (set_messages (insert r (<[i := m1]> log)) s), m1.
  split; [by apply add_reaction_found|].
  split.
  { unfold find_message, log_of. simpl. rewrite lookup_insert_eq. simpl.
    by rewrite (find_after_rewrite messageId log i m m1 Hlf Hid). }
  split; [done|].
  split; [intros k' Hne; simpl; by rewrite lookup_insert_ne|].
  split.
  { intros r' id' k' Hne. unfold reactors_of, find_message, log_of. simpl.
    destruct (decide (r' = r)) as [->|Hr].
    - rewrite lookup_insert_eq, Hlog. simpl.
      rewrite (list_find_insert_other _ log i m m1); [done|done| |].
      + rewrite Hid. congruence.
      + simpl. rewrite Hid. congruence.
    - by rewrite lookup_insert_ne. }
  split; [|done].
  intros r'. unfold api_messages. simpl.
  destruct (decide (r' = r)) as [->|Hr].
  - rewrite lookup_insert_eq, Hlog. simpl. apply length_insert.
  - by rewrite lookup_insert_ne.
Qed.

Lemma reaction_toggle_touches_one_array_witness :
  ∃ s' m',
    handle "s1" (Sample.env "9") (add_reaction "id-5" "like" None) two_users
    = Some (s', [Emit (ToRoom "global") "message_updated" (P_message m')])
    ∧ find_message "global" "id-5" s' = Some m'
    ∧ envelope m'
      = envelope (text_messageData "s2" (Sample.env "5")
                    (mkUser "s2" "bob" (Some "b.png") "t-2" "global" "online")
                    "hello" "global")
    ∧ (∀ k', k' ≠ "like" →
         reactions m' !! k'
         = reactions (text_messageData "s2" (Sample.env "5")
                        (mkUser "s2" "bob" (Some "b.png") "t-2" "global"
                           "online") "hello" "global") !! k')
    ∧ (∀ r' id' k', id' ≠ "id-5" →
         reactors_of r' id' k' s' = reactors_of r' id' k' two_users)
    ∧ (∀ r', length (api_messages r' s')
             = length (api_messages r' two_users))
    ∧ users s' = users two_users ∧ rooms s' = rooms two_users
    ∧ typingUsers s' = typingUsers two_users
    ∧ readReceipts s' = readReceipts two_users.
Proof.
  apply (reaction_toggle_touches_one_array "s1" (Sample.env "9") two_users
           (mkUser "s1" "alice" None "t-1" "id-3" "online") "id-5" "like"
           None).
  - vm_compute. reflexivity.
  - vm_compute. reflexivity.
  - vm_compute. reflexivity.
Defined.

(** ** Toggling twice *)

Lemma toggle_absent (name : string) (l : list string) :
  name ∉ l → toggle name l = l ++ [name].
Proof.
  intros Hno. unfold toggle.
  by rewrite (proj2 (indexOf_None name l) Hno).
Qed.

Lemma toggle_last (name : string) (l : list string) :
  name ∉ l → toggle name (l ++ [name]) = l.
Proof.
  intros Hno. unfold toggle, JsArray.indexOf.
  assert (list_find (λ y, y = name) l = None) as Hnone.
  { apply list_find_None, Forall_forall. by intros x Hx ->. }
  rewrite (list_find_app_r _ l [name] Hnone).
  simpl. rewrite decide_True by done. simpl.
  unfold JsArray.splice1. rewrite (delete_middle l [] name).
  by rewrite app_nil_r.
Qed.

(** X25. What two toggles do to a reactor array without repetition. If the
    name was not in the array, the first toggle pushes it and the second
    removes it again: the array is exactly as before. If the name was in
    the array, the first toggle removes it and the second pushes it: the
    array holds the same names, the toggled name now at the end. *)
Theorem toggle_twice_restores_or_moves_to_end (name : string)
    (l : list string) :
  NoDup l →
  (name ∉ l → toggle name (toggle name l) = l)
  ∧ (name ∈ l →
     ∃ i, l !! i = Some name
          ∧ toggle name (toggle name l) = delete i l ++ [name])
  ∧ toggle name (toggle name l) ≡ₚ l.
Proof.
  intros Hnd.
  assert (name ∈ l →
          ∃ i, l !! i = Some name
               ∧ toggle name (toggle name l) = delete i l ++ [name])
    as Hin.
  { intros Hin.
    destruct (JsArray.indexOf name l) as [i|] eqn:Hidx;
      [|by apply indexOf_None in Hidx].
    pose proof (indexOf_Some name l i Hidx) as Hi.
    exists i. split; [done|].
    assert (toggle name l = delete i l) as ->
      by (unfold toggle; by rewrite Hidx).
    apply toggle_absent.
    intros Hstill.
    by apply (splice1_elem_of name name l i Hnd Hi) in Hstill as [? _]. }
  split; [|split; [done|]].
  - intros Hno. rewrite (toggle_absent name l Hno). by apply toggle_last.
  - destruct (decide (name ∈ l)) as [Hyes|Hno].
    + destruct (Hin Hyes) as (i & Hi & ->).
      rewrite (delete_Permutation l i name Hi) at 2.
      by rewrite Permutation_app_comm.
    + rewrite (toggle_absent name l Hno). by rewrite toggle_last.
Qed.

Lemma toggle_twice_restores_or_moves_to_end_witness :
  toggle "bob" (toggle "bob" ["alice"; "bob"; "carol"])
  = ["alice"; "carol"; "bob"]
  ∧ (("dan" ∉ ["alice"; "bob"; "carol"] →
      toggle "dan" (toggle "dan" ["alice"; "bob"; "carol"])
      = ["alice"; "bob"; "carol"])
     ∧ ("dan" ∈ ["alice"; "bob"; "carol"] →
        ∃ i, ["alice"; "bob"; "carol"] !! i = Some "dan"
             ∧ toggle "dan" (toggle "dan" ["alice"; "bob"; "carol"])
               = delete i ["alice"; "bob"; "carol"] ++ ["dan"])
     ∧ toggle "dan" (toggle "dan" ["alice"; "bob"; "carol"])
       ≡ₚ ["alice"; "bob"; "carol"]).
Proof.
  split; [vm_compute; reflexivity|].
  apply (toggle_twice_restores_or_moves_to_end "dan"
           ["alice"; "bob"; "carol"]).
  apply (bool_decide_unpack _). vm_compute. exact I.
Defined.

(** ** What eviction keeps *)

(** X26. Eviction never reorders and never drops a recent message for an
    older one: starting from a room without messages, after any mix of
    [send_message] and [file_uploaded] events by registered users to that
    room, the room's log is the sequence of the messages appended with some
    of the oldest dropped from the front, and nothing is dropped unless the
    log keeps 100 messages or more. *)
Theorem log_is_the_most_recent_appended (r : string) (s : State)
    (tr : list Input) :
  log_of r s = [] →
  Forall (append_by_registered r s) tr →
  ∃ s' k,
    run s tr = Some s'
    ∧ api_messages r s' = drop k (appended s tr)
    ∧ api_messages r s' `suffix_of` appended s tr
    ∧ (k = 0 ∨ 100 ≤ length (api_messages r s')).
Proof.
  intros Hempty Hall.
  destruct (run_appends_log r tr s [] 0 Hall Hempty (or_introl eq_refl))
    as (s' & k & Hrun & _ & Hlog & Hk).
  simpl in Hlog. exists s', k. split; [done|].
  change (api_messages r s') with (log_of r s').
  split; [done|]. split; [|done].
  rewrite Hlog. apply suffix_drop.
Qed.

Lemma log_is_the_most_recent_appended_witness :
  ∃ s' k,
    run alice_joined (uploads 120) = Some s'
    ∧ api_messages "global" s' = drop k (appended alice_joined (uploads 120))
    ∧ api_messages "global" s' `suffix_of` appended alice_joined (uploads 120)
    ∧ (k = 0 ∨ 100 ≤ length (api_messages "global" s')).
Proof.
  apply (log_is_the_most_recent_appended "global" alice_joined (uploads 120)).
  - vm_compute. reflexivity.
  - apply Forall_forall. intros i Hi. unfold uploads in Hi.
    apply list_elem_of_fmap in Hi as (k & -> & _).
    split; [reflexivity|]. eexists. vm_compute. reflexivity.
Defined.
